(** * DataETL: a shallow embedding of [src/DataETL.py]

    The program is a three-step batch pipeline written against pandas and
    sqlite3:  [load_files]  reads every CSV / Parquet file of a directory,
    [preprocess_data] merges the loaded tables, normalises the timestamp
    column to UTC, drops the rows that have no timestamp and sorts, and
    [create_database] writes the result to a SQLite table.

    The Python object, the file system, the SQLite store and the logger are
    one explicit state; the methods are computations in a state-and-exception
    monad.  The pandas calls are modelled operation by operation, with the
    arguments the source passes.  Three pieces of pandas are taken as an
    interface ([Pandas] below): the recogniser that reads a date-time out of
    a string or number, the rule by which a merged column becomes a column
    of floats, and the index sort that [sort_values] runs with its default
    [kind='quicksort'].  The theorems hold for every implementation of the
    interface; two implementations are given to run the pipeline on concrete
    inputs. *)

From Stdlib Require Import ZArith List String Ascii Bool Lia Permutation Sorted.
From stdpp Require Import gmap strings.
Import ListNotations.
Local Open Scope string_scope.
Local Open Scope Z_scope.

(** ** Cells and frames *)

(** A cell of a DataFrame.  [NA] is a missing value ([None] / [NaN]),
    [NaT] the invalid-timestamp marker.  [Int z] is an integer, of a column
    of integers or of a column of objects; [Float m e] is the finite double
    [m * 2^e].  A [Naive] timestamp is a wall-clock reading in nanoseconds
    since 1970-01-01T00:00 with no zone; an [Aware] timestamp is an instant
    in nanoseconds since the epoch (UTC) together with the UTC offset (ns) of
    the zone it is shown in. *)
Inductive value : Type :=
| NA
| NaT
| Int (z : Z)
| Float (m : Z) (e : Z)
| Str (s : string)
| Naive (wall : Z)
| Aware (utc : Z) (off : Z).

Definition isna (v : value) : bool :=
  match v with
  | NA | NaT => true
  | _ => false
  end.

Definition row : Type := list value.

(** A frame is its column labels, in order, and its rows; each row carries
    its index label.  Labels may repeat after a rename, so cells are held by
    position. *)
Record DataFrame : Type := mkFrame {
  columns : list string;
  rows : list (nat * row)
}.

Definition index (df : DataFrame) : list nat := List.map fst (rows df).
Definition values (df : DataFrame) : list row := List.map snd (rows df).

(** [len(df)] *)
Definition len (df : DataFrame) : nat := List.length (rows df).

(** [df.empty]: some axis has length 0. *)
Definition empty (df : DataFrame) : bool :=
  (len df =? 0)%nat || (List.length (columns df) =? 0)%nat.

(** [label in df.columns] *)
Definition has_column (c : string) (cols : list string) : bool :=
  existsb (String.eqb c) cols.

Fixpoint nodupb (cols : list string) : bool :=
  match cols with
  | [] => true
  | c :: cs => negb (has_column c cs) && nodupb cs
  end.

(** What a reader hands over: distinct column labels ([read_csv] renames
    repeated headers, Parquet schemas have none) and rows as wide as the
    header. *)
Definition well_formed (df : DataFrame) : bool :=
  nodupb (columns df) &&
  forallb (fun r => (List.length (snd r) =? List.length (columns df))%nat) (rows df).

(** The cell of a row under a label: first position that carries the label,
    [NA] when there is none. *)
Fixpoint cell (cols : list string) (r : row) (c : string) : value :=
  match cols, r with
  | c' :: cols', v :: r' => if String.eqb c' c then v else cell cols' r' c
  | _, _ => NA
  end.

(** ** Exceptions *)

Inductive exn : Type :=
| KeyError (key : string)
| ValueError (msg : string)
| AttributeError (msg : string)
| OverflowError (msg : string)
| ReadError (msg : string)          (* whatever a file reader raises *)
| OperationalError (msg : string).  (* what SQLite answers to a statement *)

(** ** The pandas interface

    [parse_datetime col v] is what [pd.to_datetime] reads out of a string or
    a number [v] of the column [col] (the column is an argument because
    pandas may settle on one format for the whole column): the wall-clock
    reading in nanoseconds since 1970-01-01T00:00 and, when the text carries
    one, its UTC offset in nanoseconds; [None] when nothing can be read.

    [float64_column dfs c] tells whether [pd.concat] gives the column [c]
    of the merged tables the dtype [float64] (it does when integers meet
    floats or empty cells and nothing else; the rule for tables without
    rows has changed between releases).

    [argsort ks] is numpy's [argsort] as [sort_values] calls it by default
    ([kind='quicksort']): the positions of [ks] in an order that makes the
    keys non-decreasing.  Nothing more is promised for that kind; in
    particular equal keys may come out in any order. *)
Class Pandas : Type := {
  parse_datetime : list value -> value -> option (Z * option Z);
  float64_column : list DataFrame -> string -> bool;
  argsort : list Z -> list nat;
  argsort_perm : forall ks, Permutation (argsort ks) (seq 0 (List.length ks));
  argsort_sorted : forall ks, Sorted Z.le (List.map (fun i => nth i ks 0) (argsort ks))
}.

(** ** [pd.concat(all_dfs, ignore_index=True)]

    The tables are those the readers hand over, whose column labels are
    distinct (a table with a repeated label cannot be laid out under
    another header, and pandas raises).  The merged header is the union of
    theirs in order of first appearance, each row is laid out under it with
    empty cells where its table has no column, the columns take the common
    dtype of their parts, and the index is renumbered. *)

(** Labels of [cs] not yet in [acc], appended in order of first appearance. *)
Fixpoint add_new (acc cs : list string) : list string :=
  match cs with
  | [] => acc
  | c :: cs' => add_new (if has_column c acc then acc else acc ++ [c]) cs'
  end.

Definition union_columns (dfs : list DataFrame) : list string :=
  add_new [] (flat_map columns dfs).

(** A row of a frame with columns [src], laid out under the columns [dst]. *)
Definition reindex (src dst : list string) (r : row) : row :=
  List.map (fun c => if has_column c src then cell src r c else NA) dst.

(** The double nearest to an integer, ties to the even mantissa: 53 bits
    are kept. *)
Definition float64 (z : Z) : value :=
  let a := Z.abs z in
  let sh := Z.log2 a + 1 - 53 in
  if sh <=? 0 then Float z 0
  else
    let q := Z.shiftr a sh in
    let r := a - Z.shiftl q sh in
    let half := Z.shiftl 1 (sh - 1) in
    Float (Z.sgn z * (if (half <? r) || ((r =? half) && Z.odd q) then q + 1 else q)) sh.

(** An integer of the 64-bit signed range. *)
Definition int64 (v : value) : bool :=
  match v with
  | Int z => (- 2 ^ 63 <=? z) && (z <? 2 ^ 63)
  | _ => false
  end.

(** Every table has the column, with rows, and nothing but integers of the
    64-bit signed range in it (columns of dtype [int64], as [read_csv]
    infers them): the merged column is of that dtype as well. *)
Definition integer_column (dfs : list DataFrame) (c : string) : bool :=
  forallb (fun df => has_column c (columns df) && negb (len df =? 0)%nat &&
                     forallb (fun r => int64 (cell (columns df) r c)) (values df))
          dfs.

(** A cell under the dtype of its merged column: an integer is kept in an
    integer column and in a column of objects, and becomes the nearest
    double in a [float64] column; every other cell stays as it is. *)
Definition cast `{Pandas} (dfs : list DataFrame) (c : string) (v : value) : value :=
  match v with
  | Int z =>
      if integer_column dfs c then v
      else if float64_column dfs c then float64 z
      else v
  | _ => v
  end.

Definition astype `{Pandas} (dfs : list DataFrame) (cols : list string) (r : row) : row :=
  List.map (fun cv => cast dfs (fst cv) (snd cv)) (combine cols r).

Definition relabel (rs : list row) : list (nat * row) :=
  combine (seq 0 (List.length rs)) rs.

Definition concat `{Pandas} (dfs : list DataFrame) : exn + DataFrame :=
  match dfs with
  | [] => inl (ValueError "No objects to concatenate")
  | _ =>
      let cols := union_columns dfs in
      inr {| columns := cols;
             rows := relabel
                       (flat_map
                          (fun df => List.map (fun r => astype dfs cols (reindex (columns df) cols r))
                                              (values df))
                          dfs) |}
  end.

(** ** [df.rename(columns={old: new}, inplace=True)] *)

Definition rename (old new : string) (df : DataFrame) : DataFrame :=
  {| columns := List.map (fun c => if String.eqb c old then new else c) (columns df);
     rows := rows df |}.

(** ** [df[key]] *)

Definition count_label (c : string) (cols : list string) : nat :=
  List.length (List.filter (String.eqb c) cols).

(** Every cell of a row that sits under the label. *)
Fixpoint cells_at (cols : list string) (r : row) (c : string) : list value :=
  match cols, r with
  | c' :: cols', v :: r' =>
      if String.eqb c' c then v :: cells_at cols' r' c else cells_at cols' r' c
  | _, _ => []
  end.

(** A label that occurs once selects a Series (its values, in row order, on
    the frame's own index); a repeated label selects a frame of all the
    columns that carry it. *)
Inductive selection : Type :=
| Series (vals : list value)
| SubFrame (df : DataFrame).

Definition getitem (df : DataFrame) (key : string) : exn + selection :=
  match count_label key (columns df) with
  | O => inl (KeyError key)
  | S O => inr (Series (List.map (fun r => cell (columns df) (snd r) key) (rows df)))
  | n => inr (SubFrame {| columns := repeat key n;
                          rows := List.map (fun r => (fst r, cells_at (columns df) (snd r) key))
                                           (rows df) |})
  end.

(** ** [pd.to_datetime(arg, errors='coerce', utc=True)] *)

(** Timestamps are 64-bit nanosecond counts; the least 64-bit value is the
    [NaT] pattern, so an instant is representable when it lies strictly
    between [-2^63] and [2^63]. *)
Definition in_bounds (ns : Z) : bool := (- 2 ^ 63 <? ns) && (ns <? 2 ^ 63).

(** [errors='coerce']: an instant out of range becomes [NaT]. *)
Definition utc_instant (ns : Z) : value :=
  if in_bounds ns then Aware ns 0 else NaT.

(** [utc=True]: a reading without offset is taken as UTC as it stands, a
    reading with an offset is moved to UTC. *)
Definition to_utc (p : Z * option Z) : value :=
  match p with
  | (wall, None) => utc_instant wall
  | (wall, Some off) => utc_instant (wall - off)
  end.

Definition to_datetime_cell `{Pandas} (col : list value) (v : value) : value :=
  match v with
  | NA | NaT => NaT
  | Naive wall => utc_instant wall
  | Aware utc _ => Aware utc 0
  | Int _ | Float _ _ | Str _ =>
      match parse_datetime col v with
      | Some p => to_utc p
      | None => NaT
      end
  end.

(** A Series is converted cell by cell; a frame is taken for a table of
    year / month / day columns, which one with a repeated label is not. *)
Definition to_datetime `{Pandas} (arg : selection) : exn + list value :=
  match arg with
  | Series vals => inr (List.map (to_datetime_cell vals) vals)
  | SubFrame _ => inl (ValueError "cannot assemble with duplicate keys")
  end.

(** ** [df[key] = series] *)

Fixpoint set_cell (cols : list string) (r : row) (c : string) (v : value) : row :=
  match cols, r with
  | c' :: cols', x :: r' => (if String.eqb c' c then v else x) :: set_cell cols' r' c v
  | _, _ => r
  end.

Definition setitem (df : DataFrame) (key : string) (vals : list value) : DataFrame :=
  if has_column key (columns df) then
    {| columns := columns df;
       rows := List.map (fun rv => (fst (fst rv), set_cell (columns df) (snd (fst rv)) key (snd rv)))
                        (combine (rows df) vals) |}
  else
    {| columns := (columns df ++ [key])%list;
       rows := List.map (fun rv => (fst (fst rv), (snd (fst rv) ++ [snd rv])%list))
                        (combine (rows df) vals) |}.

(** ** [df.dropna(subset=[key], inplace=True)] *)

Definition dropna (df : DataFrame) (key : string) : exn + DataFrame :=
  if has_column key (columns df) then
    inr {| columns := columns df;
           rows := List.filter
                     (fun r => negb (existsb isna (cells_at (columns df) (snd r) key)))
                     (rows df) |}
  else inl (KeyError key).

(** ** [df.sort_values(key, inplace=True)] *)

(** The 64-bit key of a cell of a UTC timestamp column; [NaT] has none. *)
Definition sort_key (v : value) : option Z :=
  match v with
  | Aware utc _ => Some utc
  | _ => None
  end.

Definition is_some {A} (o : option A) : bool :=
  match o with Some _ => true | None => false end.

(** pandas' [nargsort] with [na_position='last']: the positions that hold a
    key, in the order [argsort] gives their keys, then the positions that
    hold none. *)
Definition nargsort `{Pandas} (ks : list (option Z)) : list nat :=
  let idx := seq 0 (List.length ks) in
  let non_nan_idx := List.filter (fun i => is_some (nth i ks None)) idx in
  let non_nans := flat_map (fun k => match k with Some z => [z] | None => [] end) ks in
  let nan_idx := List.filter (fun i => negb (is_some (nth i ks None))) idx in
  (List.map (fun j => nth j non_nan_idx O) (argsort non_nans) ++ nan_idx)%list.

Definition take (indexer : list nat) (df : DataFrame) : DataFrame :=
  {| columns := columns df;
     rows := List.map (fun i => nth i (rows df) (O, [])) indexer |}.

Definition sort_values `{Pandas} (df : DataFrame) (key : string) : exn + DataFrame :=
  match count_label key (columns df) with
  | O => inl (KeyError key)
  | S O =>
      let k := List.map (fun r => sort_key (cell (columns df) (snd r) key)) (rows df) in
      inr (take (nargsort k) df)
  | _ => inl (ValueError "The column label is not unique.")
  end.

(** ** The object and its surroundings *)

(** A table of the SQLite file: [to_sql(..., index=False)] writes the
    columns and the rows, not the index. *)
Record SqlTable : Type := mkTable {
  sql_columns : list string;
  sql_rows : list row
}.

Inductive level : Type := INFO | WARNING | ERROR.

(** The records the module-level [logger] receives. *)
Inductive message : Type :=
| Scanning (dir : string)
| Loaded (file_name : string)
| LoadFailed (file_name : string) (e : exn)
| NoDataframes
| Preprocessing
| PreprocessingComplete (total : nat)
| NoData
| WritingData (db_path : string)
| CreatedTable (table_name : string) (records : nat)
| DatabaseCreationFailed (e : exn).

(** A directory entry: its name and what each reader makes of it. *)
Record File : Type := mkFile {
  name : string;
  read_csv : exn + DataFrame;
  read_parquet : exn + DataFrame
}.

(** How far a write that fails had got: the database is open and nothing
    is done yet; the table of that name has been dropped; the new table has
    been created and has no rows yet. *)
Inductive stage : Type := Opened | Dropped | Created.

(** Outside the object: the directories that are scanned and their entries
    in listing order; the paths at which [sqlite3.connect] cannot open a
    database; the writes that fail once the database is open (a lock, a
    full disk, a frame SQLite or pandas cannot store), with the exception
    and the stage reached; the database files (path to table name to
    table), which are taken to lie outside the scanned directories; and the
    log. *)
Record World : Type := mkWorld {
  fs : gmap string (list File);
  db_fault : gmap string exn;
  write_fault : string -> string -> DataFrame -> option (exn * stage);
  store : gmap string (gmap string SqlTable);
  log : list (level * message)
}.

(** The attributes of a [DataETL] instance. *)
Record DataETL : Type := mkETL {
  directory : string;
  dataframes : list (string * DataFrame);
  errors : list (string * exn);
  combined_df : option DataFrame
}.

(** [DataETL(directory)] *)
Definition init (dir : string) : DataETL :=
  {| directory := dir; dataframes := []; errors := []; combined_df := None |}.

(** ** State and exceptions *)

Definition State : Type := World * DataETL.

Inductive outcome (A : Type) : Type :=
| Return (a : A) (s : State)
| Raise (e : exn) (s : State).
Arguments Return {A} a s.
Arguments Raise {A} e s.

Definition M (A : Type) : Type := State -> outcome A.

#[global] Instance M_ret : MRet M := fun A a s => Return a s.

#[global] Instance M_bind : MBind M := fun A B k c s =>
  match c s with
  | Return a s' => k a s'
  | Raise e s' => Raise e s'
  end.

Definition raise {A} (e : exn) : M A := fun s => Raise e s.

(** A library call that returns or raises. *)
Definition lift {A} (r : exn + A) : M A :=
  match r with
  | inl e => raise e
  | inr a => mret a
  end.

(** [try: body  except Exception as e: handler]: what the body did before
    it raised stays done. *)
Definition try_except {A} (body : M A) (handler : exn -> M A) : M A := fun s =>
  match body s with
  | Return a s' => Return a s'
  | Raise e s' => handler e s'
  end.

Definition get_self : M DataETL := fun s => Return (snd s) s.
Definition get_world : M World := fun s => Return (fst s) s.
Definition put_self (o : DataETL) : M unit := fun s => Return tt (fst s, o).
Definition put_world (w : World) : M unit := fun s => Return tt (w, snd s).

Fixpoint for_each {A} (l : list A) (body : A -> M unit) : M unit :=
  match l with
  | [] => mret tt
  | x :: l' => body x;; for_each l' body
  end.

(** [logger.info], [logger.warning], [logger.error] *)
Definition logger (lv : level) (m : message) : M unit :=
  w ← get_world;
  put_world {| fs := fs w; db_fault := db_fault w; write_fault := write_fault w;
               store := store w; log := (log w ++ [(lv, m)])%list |}.

(** [self.dataframes.append(x)] *)
Definition dataframes_append (x : string * DataFrame) : M unit :=
  o ← get_self;
  put_self {| directory := directory o; dataframes := (dataframes o ++ [x])%list;
              errors := errors o; combined_df := combined_df o |}.

(** [self.errors.append(x)] *)
Definition errors_append (x : string * exn) : M unit :=
  o ← get_self;
  put_self {| directory := directory o; dataframes := dataframes o;
              errors := (errors o ++ [x])%list; combined_df := combined_df o |}.

(** [self.combined_df = df], and the in-place updates of that frame. *)
Definition set_combined (df : DataFrame) : M unit :=
  o ← get_self;
  put_self {| directory := directory o; dataframes := dataframes o;
              errors := errors o; combined_df := Some df |}.

(** Reading [self.combined_df] to call a method on it. *)
Definition combined : M DataFrame :=
  o ← get_self;
  match combined_df o with
  | Some df => mret df
  | None => raise (AttributeError "'NoneType' object has no attribute")
  end.

(** ** [load_files] *)

(** [str.rfind] for one character. *)
Fixpoint rfind (ch : ascii) (s : string) : option nat :=
  match s with
  | EmptyString => None
  | String a s' =>
      match rfind ch s' with
      | Some i => Some (S i)
      | None => if Ascii.eqb a ch then Some O else None
      end
  end.

(** [Path.suffix]: the name from its last dot on, unless that dot opens or
    closes the name. *)
Definition suffix (file_name : string) : string :=
  match rfind "."%char file_name with
  | Some i =>
      if ((0 <? i) && (i <? String.length file_name - 1))%nat
      then substring i (String.length file_name - i) file_name
      else ""
  | None => ""
  end.

(** [str.lower] on the letters A to Z; other bytes stand as they are (no
    character outside ASCII lowers to a letter of the three suffixes). *)
Definition lower_ascii (a : ascii) : ascii :=
  let n := nat_of_ascii a in
  if ((65 <=? n) && (n <=? 90))%nat then ascii_of_nat (n + 32) else a.

Fixpoint lower (s : string) : string :=
  match s with
  | EmptyString => EmptyString
  | String a s' => String (lower_ascii a) (lower s')
  end.

(** [self.directory.glob("*")]: the entries of the directory; none when the
    directory does not exist. *)
Definition glob : M (list File) :=
  o ← get_self;
  w ← get_world;
  mret (default [] (fs w !! directory o)).

(** The body of the loop, with its [try] / [except]. *)
Definition load_file (file : File) : M unit :=
  try_except
    (if String.eqb (lower (suffix (name file))) ".csv" then
       df ← lift (read_csv file);
       dataframes_append (name file, df);;
       logger INFO (Loaded (name file))
     else if existsb (String.eqb (lower (suffix (name file)))) [".parquet"; ".pq"] then
       df ← lift (read_parquet file);
       dataframes_append (name file, df);;
       logger INFO (Loaded (name file))
     else mret tt)
    (fun e =>
       errors_append (name file, e);;
       logger ERROR (LoadFailed (name file) e)).

Definition load_files : M unit :=
  o ← get_self;
  logger INFO (Scanning (directory o));;
  files ← glob;
  for_each files load_file.

(** ** [preprocess_data] *)

Definition preprocess_data `{Pandas} : M unit :=
  o ← get_self;
  match dataframes o with
  | [] => logger WARNING NoDataframes
  | _ =>
      logger INFO Preprocessing;;
      let all_dfs := List.map snd (dataframes o) in
      merged ← lift (concat all_dfs);
      set_combined merged;;
      df ← combined;
      (if has_column "DATETIME" (columns df)
       then set_combined (rename "DATETIME" "datetime" df)
       else mret tt);;
      df ← combined;
      col ← lift (getitem df "datetime");
      ts ← lift (to_datetime col);
      set_combined (setitem df "datetime" ts);;
      df ← combined;
      dropped ← lift (dropna df "datetime");
      set_combined dropped;;
      df ← combined;
      sorted ← lift (sort_values df "datetime");
      set_combined sorted;;
      df ← combined;
      logger INFO (PreprocessingComplete (len df))
  end.

(** ** [create_database] *)

Definition table_of (df : DataFrame) : SqlTable :=
  {| sql_columns := columns df; sql_rows := values df |}.

(** The character occurs in the string. *)
Fixpoint contains (ch : ascii) (s : string) : bool :=
  match s with
  | EmptyString => false
  | String a s' => Ascii.eqb a ch || contains ch s'
  end.

(** Three reasons for which a frame is not taken, whatever the state of the
    database.  pandas quotes the column names and then the table name
    before it sends a statement, and refuses a name that is empty or holds
    a NUL.  Column names that differ at most in the case of ASCII letters
    are one name to SQLite: [CREATE TABLE] fails at the first label that
    repeats an earlier one, after the old table has been dropped.  An
    integer outside the 64-bit signed range cannot be bound to a parameter:
    the insertion fails and is rolled back, after the new table has been
    created. *)
Definition invalid_name (n : string) : option exn :=
  if String.eqb n "" then Some (ValueError "Empty table or column name specified")
  else if contains Ascii.zero n then Some (ValueError "SQLite identifier cannot contain NULs")
  else None.

Fixpoint first_invalid (names : list string) : option exn :=
  match names with
  | [] => None
  | n :: names' =>
      match invalid_name n with
      | Some e => Some e
      | None => first_invalid names'
      end
  end.

Fixpoint repeated_column (seen cols : list string) : option string :=
  match cols with
  | [] => None
  | c :: cs =>
      if has_column (lower c) seen then Some c
      else repeated_column (lower c :: seen) cs
  end.

Definition too_large (v : value) : bool :=
  match v with
  | Int z => negb ((- 2 ^ 63 <=? z) && (z <? 2 ^ 63))
  | _ => false
  end.

Definition sqlite_refuses (table_name : string) (df : DataFrame) : option (exn * stage) :=
  match first_invalid (columns df ++ [table_name]) with
  | Some e => Some (e, Opened)
  | None =>
      match repeated_column [] (columns df) with
      | Some c => Some (OperationalError ("duplicate column name: " ++ c), Dropped)
      | None =>
          if existsb (existsb too_large) (values df)
          then Some (OverflowError "Python int too large to convert to SQLite INTEGER",
                     Created)
          else None
      end
  end.

(** What makes the write fail once the database is open, if anything. *)
Definition write_failure (w : World) (db_path table_name : string) (df : DataFrame)
  : option (exn * stage) :=
  match write_fault w db_path table_name df with
  | Some failure => Some failure
  | None => sqlite_refuses table_name df
  end.

(** The tables of the database after a write that failed at the stage. *)
Definition left_behind (reached : stage) (table_name : string) (df : DataFrame)
           (db : gmap string SqlTable) : gmap string SqlTable :=
  match reached with
  | Opened => db
  | Dropped => delete table_name db
  | Created => <[table_name := {| sql_columns := columns df; sql_rows := [] |}]> db
  end.

Definition with_store (w : World) (st : gmap string (gmap string SqlTable)) : World :=
  {| fs := fs w; db_fault := db_fault w; write_fault := write_fault w;
     store := st; log := log w |}.

(** [with sqlite3.connect(db_path) as conn: df.to_sql(table_name, conn,
    if_exists='replace', index=False)].  [connect] raises when the database
    cannot be opened, and creates the file when there is none.  The write
    drops the table of that name, creates it anew and inserts the rows; when
    it fails on the way it raises, and what it had done by then stays
    done. *)
Definition to_sql (df : DataFrame) (db_path table_name : string) : M unit :=
  w ← get_world;
  match db_fault w !! db_path with
  | Some e => raise e
  | None =>
      let db := default ∅ (store w !! db_path) in
      match write_failure w db_path table_name df with
      | Some (e, reached) =>
          put_world (with_store w (<[db_path := left_behind reached table_name df db]>
                                     (store w)));;
          raise e
      | None =>
          put_world (with_store w (<[db_path := <[table_name := table_of df]> db]>
                                     (store w)))
      end
  end.

Definition create_database (db_path table_name : string) : M unit :=
  o ← get_self;
  match combined_df o with
  | None => logger ERROR NoData
  | Some df =>
      if empty df then logger ERROR NoData
      else
        logger INFO (WritingData db_path);;
        try_except
          (to_sql df db_path table_name;;
           logger INFO (CreatedTable table_name (len df)))
          (fun e => logger ERROR (DatabaseCreationFailed e))
  end.

(** ** [run] *)

Definition run `{Pandas} (db_path table_name : string) : M nat :=
  load_files;;
  preprocess_data;;
  create_database db_path table_name;;
  o ← get_self;
  mret (match combined_df o with
        | Some df => len df
        | None => O
        end).

(** ** Two implementations of the interface

    Both read ISO-8601 texts, [YYYY-MM-DD] alone or followed by [T] or a
    blank and [HH:MM:SS] with an optional [Z] or [+HH:MM] / [-HH:MM], the
    way pandas 2 does: the layout of the first value of the column is the
    format of the column, and a text of another layout is not read.  Both
    give a merged column the dtype [float64] when it holds numbers and empty
    cells only and not integers alone.  One sorts by insertion, the other
    the way numpy's generic index quicksort does. *)

Module Iso.

Definition digit (a : ascii) : option Z :=
  let n := nat_of_ascii a in
  if ((48 <=? n) && (n <=? 57))%nat then Some (Z.of_nat (n - 48)) else None.

(** Exactly [n] digits, read as a number (continuing from [acc]). *)
Fixpoint digits (n : nat) (acc : Z) (s : string) : option (Z * string) :=
  match n with
  | O => Some (acc, s)
  | S n' =>
      match s with
      | String a s' => d ← digit a; digits n' (10 * acc + d) s'
      | EmptyString => None
      end
  end.

Definition expect (ok : ascii -> bool) (s : string) : option string :=
  match s with
  | String a s' => if ok a then Some s' else None
  | EmptyString => None
  end.

Definition is_leap (y : Z) : bool :=
  ((y mod 4 =? 0) && negb (y mod 100 =? 0)) || (y mod 400 =? 0).

Definition days_in_month (y m : Z) : Z :=
  if m =? 2 then (if is_leap y then 29 else 28)
  else if (m =? 4) || (m =? 6) || (m =? 9) || (m =? 11) then 30
  else 31.

(** Days from 1970-01-01 to the given date of the proleptic Gregorian
    calendar. *)
Definition days_from_civil (y m d : Z) : Z :=
  let y' := if m <=? 2 then y - 1 else y in
  let era := y' / 400 in
  let yoe := y' - era * 400 in
  let doy := (153 * (if 2 <? m then m - 3 else m + 9) + 2) / 5 + d - 1 in
  let doe := yoe * 365 + yoe / 4 - yoe / 100 + doy in
  era * 146097 + doe - 719468.

Definition ns_per_second : Z := 1000000000.

(** The zone designator at the end of the text. *)
Definition zone (s : string) : option (option Z) :=
  match s with
  | EmptyString => Some None
  | String "Z" EmptyString => Some (Some 0)
  | String sign s1 =>
      sgn ← (if Ascii.eqb sign "+" then Some 1
             else if Ascii.eqb sign "-" then Some (-1) else None);
      '(hh, s2) ← digits 2 0 s1;
      s3 ← expect (Ascii.eqb ":") s2;
      '(mm, s4) ← digits 2 0 s3;
      match s4 with
      | EmptyString =>
          if (hh <? 24) && (mm <? 60)
          then Some (Some (sgn * (hh * 3600 + mm * 60) * ns_per_second))
          else None
      | _ => None
      end
  end.

(** Nanoseconds from the epoch to the wall-clock reading, if there is such
    a day and time. *)
Definition civil (y m d hh mm ss : Z) : option Z :=
  if (1 <=? m) && (m <=? 12) && (1 <=? d) && (d <=? days_in_month y m)
     && (hh <? 24) && (mm <? 60) && (ss <? 60)
  then Some ((days_from_civil y m d * 86400 + hh * 3600 + mm * 60 + ss) * ns_per_second)
  else None.

(** The layout of a text: a date alone, or a date, the separator, a time
    and possibly a zone. *)
Inductive layout : Type :=
| DateOnly
| DateTime (sep : ascii) (zoned : bool).

Definition same_layout (a b : layout) : bool :=
  match a, b with
  | DateOnly, DateOnly => true
  | DateTime sep zoned, DateTime sep' zoned' => Ascii.eqb sep sep' && Bool.eqb zoned zoned'
  | _, _ => false
  end.

(** A text, read: its layout, the wall clock and the offset. *)
Definition scan (s : string) : option (layout * (Z * option Z)) :=
  '(y, s) ← digits 4 0 s;
  s ← expect (Ascii.eqb "-") s;
  '(m, s) ← digits 2 0 s;
  s ← expect (Ascii.eqb "-") s;
  '(d, s) ← digits 2 0 s;
  match s with
  | EmptyString =>
      wall ← civil y m d 0 0 0;
      Some (DateOnly, (wall, None))
  | String sep s =>
      if Ascii.eqb sep "T" || Ascii.eqb sep " " then
        '(hh, s) ← digits 2 0 s;
        s ← expect (Ascii.eqb ":") s;
        '(mm, s) ← digits 2 0 s;
        s ← expect (Ascii.eqb ":") s;
        '(ss, s) ← digits 2 0 s;
        off ← zone s;
        wall ← civil y m d hh mm ss;
        Some (DateTime sep (is_some off), (wall, off))
      else None
  end.

Definition parse (s : string) : option (Z * option Z) :=
  option_map snd (scan s).

(** The format pandas settles on: the layout of the first value that is
    not null, when that is a text it can read. *)
Definition settled (col : list value) : option layout :=
  match List.find (fun v => negb (isna v)) col with
  | Some (Str s) => option_map fst (scan s)
  | _ => None
  end.

(** A value read on its own: a text by its own layout, a number as
    nanoseconds since the epoch (a fraction of a nanosecond is cut off). *)
Definition each (v : value) : option (Z * option Z) :=
  match v with
  | Str s => parse s
  | Int z => Some (z, None)
  | Float m e => Some (if 0 <=? e then m * 2 ^ e else Z.quot m (2 ^ (- e)), None)
  | _ => None
  end.

Definition parse_datetime (col : list value) (v : value) : option (Z * option Z) :=
  match settled col with
  | Some format =>
      match v with
      | Str s =>
          match scan s with
          | Some (found, p) => if same_layout format found then Some p else None
          | None => None
          end
      | _ => None
      end
  | None => each v
  end.

End Iso.

Module Dtype.

Definition number (v : value) : bool :=
  match v with
  | NA | Int _ | Float _ _ => true
  | _ => false
  end.

Definition integer (v : value) : bool :=
  match v with
  | Int _ => true
  | _ => false
  end.

(** The cells that go into the merged column, an empty cell for each row
    of a table that has no such column. *)
Definition cells (dfs : list DataFrame) (c : string) : list value :=
  flat_map (fun df => List.map (fun r => cell (columns df) r c) (values df)) dfs.

Definition float64_column (dfs : list DataFrame) (c : string) : bool :=
  forallb number (cells dfs c) && negb (forallb integer (cells dfs c)).

End Dtype.

Module InsertionSort.

(** Put [x] in front of the first entry with a greater key. *)
Fixpoint insert (x : Z * nat) (l : list (Z * nat)) : list (Z * nat) :=
  match l with
  | [] => [x]
  | y :: l' => if fst x <? fst y then x :: l else y :: insert x l'
  end.

Definition sort_pairs (l : list (Z * nat)) : list (Z * nat) :=
  fold_left (fun acc x => insert x acc) l [].

Definition argsort (ks : list Z) : list nat :=
  List.map snd (sort_pairs (combine ks (seq 0 (List.length ks)))).

End InsertionSort.

(** numpy's index quicksort for one key type ([aquicksort_] of
    [npysort/quicksort.cpp], the path taken where no vectorised sort is
    dispatched): median of three, partition by exchanges around the pivot,
    insertion sort for segments of up to 16 entries, the larger part kept on
    a stack.  [t] is the array [tosort] of positions; [pl], [pr], [pi],
    [pj] are offsets into it. *)
Module Introsort.

(** [v[*p]] *)
Definition key (ks : list Z) (t : list nat) (p : nat) : Z := nth (nth p t O) ks 0.

(** [INTP_SWAP] of the entries at [a] and [b]. *)
Definition swap (t : list nat) (a b : nat) : list nat :=
  <[a := nth b t O]> (<[b := nth a t O]> t).

(** [while (less(v[*pi], vp)) ++pi;] *)
Fixpoint up (ks : list Z) (t : list nat) (vp : Z) (pi fuel : nat) : nat :=
  match fuel with
  | O => pi
  | S fuel' => if key ks t pi <? vp then up ks t vp (S pi) fuel' else pi
  end.

(** [while (less(vp, v[*pj])) --pj;] *)
Fixpoint down (ks : list Z) (t : list nat) (vp : Z) (pj fuel : nat) : nat :=
  match fuel with
  | O => pj
  | S fuel' => if vp <? key ks t pj then down ks t vp (pj - 1)%nat fuel' else pj
  end.

(** The [for (;;)] of the partition: advance [pi], retreat [pj], stop when
    they meet, else exchange and go on. *)
Fixpoint exchange (ks : list Z) (t : list nat) (vp : Z) (pi pj fuel : nat) : list nat * nat :=
  match fuel with
  | O => (t, pi)
  | S fuel' =>
      let pi' := up ks t vp (S pi) (List.length t) in
      let pj' := down ks t vp (pj - 1)%nat (List.length t) in
      if (pj' <=? pi')%nat then (t, pi')
      else exchange ks (swap t pi' pj') vp pi' pj' fuel'
  end.

Definition partition (ks : list Z) (t : list nat) (pl pr : nat) : list nat * nat :=
  let pm := (pl + (pr - pl) / 2)%nat in
  let t := if key ks t pm <? key ks t pl then swap t pm pl else t in
  let t := if key ks t pr <? key ks t pm then swap t pr pm else t in
  let t := if key ks t pm <? key ks t pl then swap t pm pl else t in
  let vp := key ks t pm in
  let t := swap t pm (pr - 1)%nat in
  let '(t, pi) := exchange ks t vp pl (pr - 1)%nat (List.length t) in
  (swap t pi (pr - 1)%nat, pi).

(** [while (pj > pl && less(vp, v[*pk])) *pj-- = *pk--;  *pj = vi;] *)
Fixpoint shift (ks : list Z) (t : list nat) (pl vi : nat) (vp : Z) (pj fuel : nat) : list nat :=
  match fuel with
  | O => <[pj := vi]> t
  | S fuel' =>
      if (pl <? pj)%nat && (vp <? key ks t (pj - 1)%nat)
      then shift ks (<[pj := nth (pj - 1)%nat t O]> t) pl vi vp (pj - 1)%nat fuel'
      else <[pj := vi]> t
  end.

(** The insertion sort of the segment [pl .. pr]. *)
Definition insertion (ks : list Z) (t : list nat) (pl pr : nat) : list nat :=
  fold_left (fun t pi => let vi := nth pi t O in
                         shift ks t pl vi (nth vi ks 0) pi (List.length t))
            (seq (S pl) (pr - pl)%nat) t.

(** The outer loop.  [popped] tells that the segment has just been taken
    from the stack, where the depth limit is tested; past the limit numpy
    switches to heapsort, which is not modelled ([None]). *)
Fixpoint loop (ks : list Z) (t : list nat) (pl pr : nat) (cdepth : Z)
         (stack : list (nat * nat * Z)) (popped : bool) (fuel : nat) : option (list nat) :=
  match fuel with
  | O => None
  | S fuel' =>
      if popped && (cdepth <? 0) then None
      else if (15 <? pr - pl)%nat then
        let '(t', pi) := partition ks t pl pr in
        if (pi - pl <? pr - pi)%nat
        then loop ks t' pl (pi - 1)%nat (cdepth - 1) ((S pi, pr, cdepth - 1) :: stack)
                  false fuel'
        else loop ks t' (S pi) pr (cdepth - 1) ((pl, (pi - 1)%nat, cdepth - 1) :: stack)
                  false fuel'
      else
        let t' := insertion ks t pl pr in
        match stack with
        | [] => Some t'
        | (pl', pr', d) :: stack' => loop ks t' pl' pr' d stack' true fuel'
        end
  end.

Definition aquicksort (ks : list Z) : option (list nat) :=
  let num := List.length ks in
  match num with
  | O => Some []
  | _ => loop ks (seq 0 num) O (num - 1)%nat (2 * Z.log2 (Z.of_nat num)) [] true (2 * num)%nat
  end.

Fixpoint nodup_nat (l : list nat) : bool :=
  match l with
  | [] => true
  | x :: l' => negb (existsb (Nat.eqb x) l') && nodup_nat l'
  end.

Fixpoint sortedb (l : list Z) : bool :=
  match l with
  | x :: ((y :: _) as l') => (x <=? y) && sortedb l'
  | _ => true
  end.

(** [t] holds each position of [ks] once and runs through the keys in
    non-decreasing order. *)
Definition valid (ks : list Z) (t : list nat) : bool :=
  (List.length t =? List.length ks)%nat &&
  forallb (fun i => (i <? List.length ks)%nat) t &&
  nodup_nat t &&
  sortedb (List.map (fun i => nth i ks 0) t).

(** The quicksort with its result checked; the insertion sort stands in
    where the model gave up or the check fails. *)
Definition argsort (ks : list Z) : list nat :=
  match aquicksort ks with
  | Some t => if valid ks t then t else InsertionSort.argsort ks
  | None => InsertionSort.argsort ks
  end.

End Introsort.

(** * The vocabulary of the statements *)

(** Rows of the tables that come before table [j] of the list. *)
Definition rows_before (dfs : list DataFrame) (j : nat) : nat :=
  list_sum (List.map len (firstn j dfs)).

Definition merged_rows `{Pandas} (dfs : list DataFrame) : list row :=
  flat_map (fun df => List.map (fun r => astype dfs (union_columns dfs)
                                                (reindex (columns df) (union_columns dfs) r))
                               (values df))
           dfs.

(** The merged table once [DATETIME] has been renamed. *)
Definition canonical (df : DataFrame) : DataFrame :=
  if has_column "DATETIME" (columns df) then rename "DATETIME" "datetime" df else df.

Definition datetime_of (df : DataFrame) (r : nat * row) : value :=
  cell (columns df) (snd r) "datetime".

Definition datetime_column (df : DataFrame) : list value :=
  List.map (datetime_of df) (rows df).

(** What [to_datetime] reads in a cell: wall clock and offset, if any. *)
Definition reading `{Pandas} (col : list value) (v : value) : option (Z * option Z) :=
  match v with
  | NA | NaT => None
  | Naive wall => Some (wall, None)
  | Aware utc off => Some (utc + off, Some off)
  | Int _ | Float _ _ | Str _ => parse_datetime col v
  end.

(** A cell parses when a date-time can be read in it and the instant fits
    the 64-bit nanosecond range. *)
Definition parses `{Pandas} (col : list value) (v : value) : bool :=
  match v with
  | Aware _ _ => true
  | _ =>
      match reading col v with
      | Some (wall, None) => in_bounds wall
      | Some (wall, Some off) => in_bounds (wall - off)
      | None => false
      end
  end.

(** A row of the table with its timestamp cell converted. *)
Definition convert_row `{Pandas} (df : DataFrame) (r : nat * row) : nat * row :=
  (fst r,
   set_cell (columns df) (snd r) "datetime"
            (to_datetime_cell (datetime_column df) (datetime_of df r))).

(** The rows that have a timestamp, converted, in the order of the table. *)
Definition surviving `{Pandas} (df : DataFrame) : list (nat * row) :=
  List.map (convert_row df)
           (List.filter (fun r => parses (datetime_column df) (datetime_of df r)) (rows df)).

Definition full_width (df : DataFrame) : Prop :=
  Forall (fun r => List.length (snd r) = List.length (columns df)) (rows df).

(** A cell that holds an instant shown in UTC. *)
Definition utc_timestamp (v : value) : Prop := exists u, v = Aware u 0.

Definition key_of (df : DataFrame) (r : nat * row) : Z :=
  match sort_key (datetime_of df r) with
  | Some u => u
  | None => 0
  end.

Definition logged (w : World) (ms : list (level * message)) : World :=
  {| fs := fs w; db_fault := db_fault w; write_fault := write_fault w;
     store := store w; log := (log w ++ ms)%list |}.

Definition with_combined (o : DataETL) (df : DataFrame) : DataETL :=
  {| directory := directory o; dataframes := dataframes o; errors := errors o;
     combined_df := Some df |}.

Definition tables (o : DataETL) : list DataFrame := List.map snd (dataframes o).

(** Some table of the list has a column with the label. *)
Definition mentions (c : string) (dfs : list DataFrame) : bool :=
  existsb (fun df => has_column c (columns df)) dfs.

(** Exactly one of the two spellings occurs among the tables' columns. *)
Definition one_spelling (dfs : list DataFrame) : bool :=
  xorb (mentions "datetime" dfs) (mentions "DATETIME" dfs).

(** [preprocess_data] leaves [out] in [self.combined_df] and returns. *)
Definition preprocessed `{Pandas} (s : State) (out : DataFrame) : Prop :=
  preprocess_data s =
  Return tt (logged (fst s) [(INFO, Preprocessing); (INFO, PreprocessingComplete (len out))],
             with_combined (snd s) out).

(** The reader [load_files] picks for a directory entry, applied to it;
    [None] for an entry it skips. *)
Definition attempt (file : File) : option (exn + DataFrame) :=
  if String.eqb (lower (suffix (name file))) ".csv" then Some (read_csv file)
  else if existsb (String.eqb (lower (suffix (name file)))) [".parquet"; ".pq"]
       then Some (read_parquet file)
       else None.

Definition loaded_tables (files : list File) : list (string * DataFrame) :=
  flat_map (fun file => match attempt file with
                        | Some (inr df) => [(name file, df)]
                        | _ => []
                        end) files.

Definition load_errors (files : list File) : list (string * exn) :=
  flat_map (fun file => match attempt file with
                        | Some (inl e) => [(name file, e)]
                        | _ => []
                        end) files.

Definition load_log (files : list File) : list (level * message) :=
  flat_map (fun file => match attempt file with
                        | Some (inr _) => [(INFO, Loaded (name file))]
                        | Some (inl e) => [(ERROR, LoadFailed (name file) e)]
                        | None => []
                        end) files.

(** The entries of the instance's directory. *)
Definition listing (s : State) : list File :=
  default [] (fs (fst s) !! directory (snd s)).

Definition extended (o : DataETL) (ts : list (string * DataFrame)) (es : list (string * exn))
  : DataETL :=
  {| directory := directory o; dataframes := (dataframes o ++ ts)%list;
     errors := (errors o ++ es)%list; combined_df := combined_df o |}.

(** The world once the frame has been written to the table. *)
Definition written (w : World) (db_path table_name : string) (df : DataFrame) : World :=
  {| fs := fs w; db_fault := db_fault w; write_fault := write_fault w;
     store := <[db_path := <[table_name := table_of df]> (default ∅ (store w !! db_path))]>
                (store w);
     log := (log w ++ [(INFO, WritingData db_path);
                       (INFO, CreatedTable table_name (len df))])%list |}.

(** The exception the write of the frame ends in, if it fails: at
    [connect], or once the database is open. *)
Definition refusal (w : World) (db_path table_name : string) (df : DataFrame) : option exn :=
  match db_fault w !! db_path with
  | Some e => Some e
  | None => option_map fst (write_failure w db_path table_name df)
  end.

(** What [run] returns, read off the instance. *)
Definition row_count (o : DataETL) : nat :=
  match combined_df o with
  | Some df => len df
  | None => O
  end.

(** The instance after [load_files]. *)
Definition reloaded (s : State) : DataETL :=
  extended (snd s) (loaded_tables (listing s)) (load_errors (listing s)).

(** C1's second half, as the specification words it: two rows with the same
    [datetime] stand in the order they had in the merged table (their index
    labels are their merged positions). *)
Definition ties_in_merged_order (out : DataFrame) : Prop :=
  forall i j ri rj,
    (i < j)%nat ->
    nth_error (rows out) i = Some ri -> nth_error (rows out) j = Some rj ->
    datetime_of out ri = datetime_of out rj ->
    (fst ri < fst rj)%nat.

(** C2 as the specification words it: when the database cannot be written,
    [run] returns 0 or raises. *)
Definition write_failure_visible `{Pandas} (db_path table_name : string) (s : State) : Prop :=
  forall e, db_fault (fst s) !! db_path = Some e ->
    (exists s', run db_path table_name s = Return O s') \/
    (exists e' s', run db_path table_name s = Raise e' s').

(** ** Inputs used below *)

Module Scenario.

(** [a.csv]: one row, timestamp with [Z], under the upper-case label. *)
Definition a_csv : DataFrame :=
  {| columns := ["DATETIME"; "val"];
     rows := [(O, [Str "2024-01-01T10:00:00Z"; Int 1])] |}.

(** [b.csv]: one row, naive timestamp, under the lower-case label. *)
Definition b_csv : DataFrame :=
  {| columns := ["datetime"; "val"];
     rows := [(O, [Str "2024-01-01T09:00:00"; Int 2])] |}.

(** The row of [a.csv] under the lower-case label. *)
Definition a_lower_csv : DataFrame :=
  {| columns := ["datetime"; "val"];
     rows := [(O, [Str "2024-01-01T10:00:00Z"; Int 1])] |}.

(** Two events of the same instant. *)
Definition ties_csv : DataFrame :=
  {| columns := ["datetime"; "val"];
     rows := [(O, [Str "2024-01-01T09:00:00"; Int 1]);
              (1%nat, [Str "2024-01-01T09:00:00"; Int 2])] |}.

(** Eighteen events of the same instant, [val] 0 to 17. *)
Definition burst_csv : DataFrame :=
  {| columns := ["datetime"; "val"];
     rows := List.map (fun i => (i, [Str "2024-01-01T09:00:00"; Int (Z.of_nat i)]))
                      (seq 0 18) |}.

(** The same events, normalised, with their index labels in the given
    order. *)
Definition burst_in_order (labels : list nat) : DataFrame :=
  {| columns := ["datetime"; "val"];
     rows := List.map (fun i => (i, [Aware 1704099600000000000 0; Int (Z.of_nat i)]))
                      labels |}.

(** A row whose timestamp cannot be read, next to one that can, and a row
    with an empty cell. *)
Definition bad_csv : DataFrame :=
  {| columns := ["datetime"; "val"];
     rows := [(O, [Str "not-a-date"; Int 3]);
              (1%nat, [Str "2024-01-01T09:00:00+02:00"; Int 4]);
              (2%nat, [NA; Int 5])] |}.

(** Only rows whose timestamp cannot be read. *)
Definition hopeless_csv : DataFrame :=
  {| columns := ["datetime"; "val"];
     rows := [(O, [Str "not-a-date"; Int 3]); (1%nat, [NA; Int 5])] |}.

(** No timestamp column under either spelling. *)
Definition untimed_csv : DataFrame :=
  {| columns := ["time"; "val"]; rows := [(O, [Str "2024-01-01T09:00:00"; Int 6])] |}.

(** An integer that needs 54 bits, and a table without that column. *)
Definition wide_csv : DataFrame :=
  {| columns := ["datetime"; "val"];
     rows := [(O, [Str "2024-01-01T09:00:00"; Int 9007199254740993])] |}.

Definition narrow_csv : DataFrame :=
  {| columns := ["datetime"]; rows := [(O, [Str "2024-01-01T10:00:00"])] |}.

(** Two labels that are one column name to SQLite. *)
Definition twin_csv : DataFrame :=
  {| columns := ["datetime"; "val"; "VAL"];
     rows := [(O, [Str "2024-01-01T09:00:00"; Int 1; Int 2])] |}.

(** An integer just beyond the 64-bit signed range. *)
Definition huge_csv : DataFrame :=
  {| columns := ["datetime"; "val"];
     rows := [(O, [Str "2024-01-01T09:00:00"; Int 9223372036854775808])] |}.

(** A Parquet table with one naive timestamp (2024-01-01T09:00). *)
Definition events_pq : DataFrame :=
  {| columns := ["datetime"; "val"]; rows := [(O, [Naive 1704099600000000000; Int 2])] |}.

Definition csv (file_name : string) (df : DataFrame) : File :=
  {| name := file_name; read_csv := inr df;
     read_parquet := inl (ReadError "not a Parquet file") |}.

Definition parquet (file_name : string) (df : DataFrame) : File :=
  {| name := file_name; read_csv := inl (ReadError "not a CSV file");
     read_parquet := inr df |}.

(** A world with the directory [data], no database yet, an empty log. *)
Definition world (files : list File) : World :=
  {| fs := {[ "data" := files ]}; db_fault := ∅; write_fault := fun _ _ _ => None;
     store := ∅; log := [] |}.

(** The same, where [out.db] cannot be opened. *)
Definition locked (files : list File) : World :=
  {| fs := {[ "data" := files ]};
     db_fault := {[ "out.db" := OperationalError "unable to open database file" ]};
     write_fault := fun _ _ _ => None;
     store := ∅; log := [] |}.

(** An instance on [data] that holds the given tables. *)
Definition holding (ts : list (string * DataFrame)) : DataETL :=
  {| directory := "data"; dataframes := ts; errors := []; combined_df := None |}.

Definition two_files : State :=
  (world [],
   holding [("a.csv", a_lower_csv); ("bad.csv", bad_csv)]).

Definition untimed : State :=
  (world [], holding [("untimed.csv", untimed_csv)]).

Definition locked_start : State :=
  (locked [csv "b.csv" b_csv], init "data").

Definition hopeless_start : State :=
  (world [csv "hopeless.csv" hopeless_csv], init "data").

End Scenario.

(** * Properties *)

(** ** The two sorts meet the interface *)

Module InsertionSortFacts.
Import InsertionSort.

Lemma insert_perm (x : Z * nat) l : Permutation (insert x l) (x :: l).
Proof.
  induction l as [|y l IH]; simpl; [reflexivity|].
  destruct (fst x <? fst y); [reflexivity|].
  rewrite IH. apply perm_swap.
Qed.

Lemma insert_hd (x y : Z * nat) l :
  fst y <= fst x -> HdRel Z.le (fst y) (List.map fst l) ->
  HdRel Z.le (fst y) (List.map fst (insert x l)).
Proof.
  intros Hyx Hhd. destruct l as [|z l]; simpl.
  - constructor. exact Hyx.
  - destruct (fst x <? fst z); simpl; constructor.
    + exact Hyx.
    + inversion Hhd; assumption.
Qed.

Lemma insert_sorted (x : Z * nat) l :
  Sorted Z.le (List.map fst l) -> Sorted Z.le (List.map fst (insert x l)).
Proof.
  induction l as [|y l IH]; simpl; intros Hs.
  - repeat constructor.
  - inversion Hs as [|? ? Hs' Hhd]; subst.
    destruct (fst x <? fst y) eqn:E; simpl.
    + constructor; [exact Hs|]. constructor. apply Z.ltb_lt in E. lia.
    + constructor; [apply IH, Hs'|].
      apply insert_hd; [apply Z.ltb_ge, E | exact Hhd].
Qed.

Lemma fold_insert_perm l acc :
  Permutation (fold_left (fun a x => insert x a) l acc) (l ++ acc).
Proof.
  revert acc. induction l as [|x l IH]; intros acc; simpl; [reflexivity|].
  rewrite IH, insert_perm. symmetry. apply Permutation_middle.
Qed.

Lemma fold_insert_sorted l acc :
  Sorted Z.le (List.map fst acc) ->
  Sorted Z.le (List.map fst (fold_left (fun a x => insert x a) l acc)).
Proof.
  revert acc. induction l as [|x l IH]; intros acc Hs; simpl; [exact Hs|].
  apply IH, insert_sorted, Hs.
Qed.

Lemma sort_pairs_perm l : Permutation (sort_pairs l) l.
Proof.
  unfold sort_pairs. rewrite fold_insert_perm, app_nil_r. reflexivity.
Qed.

Lemma snd_combine_seq (ks : list Z) a :
  List.map snd (combine ks (seq a (List.length ks))) = seq a (List.length ks).
Proof.
  revert a. induction ks as [|k ks IH]; intros a; simpl; [reflexivity|].
  now rewrite IH.
Qed.

Lemma nth_combine_seq (ks pre : list Z) :
  Forall (fun p => nth (snd p) (pre ++ ks) 0 = fst p)
         (combine ks (seq (List.length pre) (List.length ks))).
Proof.
  revert pre. induction ks as [|k ks IH]; intros pre; simpl; constructor.
  - simpl. rewrite app_nth2, Nat.sub_diag by lia. reflexivity.
  - specialize (IH (pre ++ [k])%list).
    rewrite <- app_assoc, length_app, Nat.add_1_r in IH. exact IH.
Qed.

Lemma insertion_argsort_perm ks : Permutation (argsort ks) (seq 0 (List.length ks)).
Proof.
  unfold argsort. rewrite sort_pairs_perm. now rewrite snd_combine_seq.
Qed.

Lemma insertion_argsort_sorted ks :
  Sorted Z.le (List.map (fun i => nth i ks 0) (argsort ks)).
Proof.
  unfold argsort.
  assert (Hkeys : Forall (fun p => nth (snd p) ks 0 = fst p)
                         (sort_pairs (combine ks (seq 0 (List.length ks))))).
  { eapply Permutation_Forall; [symmetry; apply sort_pairs_perm|].
    exact (nth_combine_seq ks []). }
  rewrite List.map_map.
  erewrite map_ext_Forall; [|exact Hkeys].
  apply fold_insert_sorted. constructor.
Qed.

End InsertionSortFacts.

Module IntrosortFacts.
Import Introsort.

Lemma nodup_nat_NoDup l : nodup_nat l = true -> List.NoDup l.
Proof.
  induction l as [|x l IH]; simpl; intros Hn; constructor.
  - apply andb_prop in Hn as [Hx _]. intros Hin.
    assert (existsb (Nat.eqb x) l = true) as E.
    { apply existsb_exists. exists x. split; [exact Hin | apply Nat.eqb_refl]. }
    rewrite E in Hx. discriminate.
  - apply IH. now apply andb_prop in Hn as [_ Hn].
Qed.

Lemma sortedb_Sorted l : sortedb l = true -> Sorted Z.le l.
Proof.
  induction l as [|x l IH]; intros Hs; [constructor|].
  destruct l as [|y l]; [repeat constructor|].
  cbn [sortedb] in Hs. apply andb_prop in Hs as [Hxy Hs].
  constructor; [apply IH, Hs|]. constructor. now apply Z.leb_le.
Qed.

Lemma valid_perm ks t : valid ks t = true -> Permutation t (seq 0 (List.length ks)).
Proof.
  unfold valid. intros Hv.
  apply andb_prop in Hv as [Hv _]. apply andb_prop in Hv as [Hv Hn].
  apply andb_prop in Hv as [Hlen Hlt]. apply Nat.eqb_eq in Hlen.
  apply NoDup_Permutation_bis.
  - now apply nodup_nat_NoDup.
  - rewrite length_seq. lia.
  - intros i Hi. rewrite forallb_forall in Hlt. apply Hlt in Hi.
    apply Nat.ltb_lt in Hi. apply in_seq. lia.
Qed.

Lemma valid_sorted ks t :
  valid ks t = true -> Sorted Z.le (List.map (fun i => nth i ks 0) t).
Proof.
  unfold valid. intros Hv. apply andb_prop in Hv as [_ Hs]. now apply sortedb_Sorted.
Qed.

Lemma introsort_argsort_perm ks : Permutation (argsort ks) (seq 0 (List.length ks)).
Proof.
  unfold argsort. destruct (aquicksort ks) as [t|].
  - destruct (valid ks t) eqn:Hv; [now apply valid_perm|].
    apply InsertionSortFacts.insertion_argsort_perm.
  - apply InsertionSortFacts.insertion_argsort_perm.
Qed.

Lemma introsort_argsort_sorted ks :
  Sorted Z.le (List.map (fun i => nth i ks 0) (argsort ks)).
Proof.
  unfold argsort. destruct (aquicksort ks) as [t|].
  - destruct (valid ks t) eqn:Hv; [now apply valid_sorted|].
    apply InsertionSortFacts.insertion_argsort_sorted.
  - apply InsertionSortFacts.insertion_argsort_sorted.
Qed.

End IntrosortFacts.

(** The interface with the insertion sort: equal keys stay in the order
    they came in. *)
Definition pandas_keeping : Pandas := {|
  parse_datetime := Iso.parse_datetime;
  float64_column := Dtype.float64_column;
  argsort := InsertionSort.argsort;
  argsort_perm := InsertionSortFacts.insertion_argsort_perm;
  argsort_sorted := InsertionSortFacts.insertion_argsort_sorted
|}.

(** The interface with the quicksort. *)
Definition pandas_quicksort : Pandas := {|
  parse_datetime := Iso.parse_datetime;
  float64_column := Dtype.float64_column;
  argsort := Introsort.argsort;
  argsort_perm := IntrosortFacts.introsort_argsort_perm;
  argsort_sorted := IntrosortFacts.introsort_argsort_sorted
|}.

(** ** Labels *)

Section Labels.
Implicit Types (c : string) (cols : list string).

Lemma has_column_In c cols : has_column c cols = true <-> In c cols.
Proof.
  unfold has_column. rewrite existsb_exists. split.
  - intros (x & Hx & E). apply String.eqb_eq in E. now subst.
  - intros Hc. exists c. split; [exact Hc | apply String.eqb_refl].
Qed.

Lemma has_column_false c cols : has_column c cols = false <-> ~ In c cols.
Proof.
  rewrite <- has_column_In. destruct (has_column c cols); split; congruence.
Qed.

Lemma nodupb_NoDup cols : nodupb cols = true -> List.NoDup cols.
Proof.
  induction cols as [|c cols IH]; simpl; intros Hn; constructor.
  - apply andb_prop in Hn as [Hc _]. apply has_column_false.
    now destruct (has_column c cols).
  - apply IH. now apply andb_prop in Hn as [_ Hn].
Qed.

Lemma count_label_cons c c' cols :
  count_label c (c' :: cols) =
  ((if String.eqb c c' then 1 else 0) + count_label c cols)%nat.
Proof. unfold count_label. simpl. now destruct (String.eqb c c'). Qed.

Lemma count_label_app c cols cols' :
  count_label c (cols ++ cols') = (count_label c cols + count_label c cols')%nat.
Proof. unfold count_label. now rewrite List.filter_app, length_app. Qed.

Lemma count_label_zero c cols : count_label c cols = O <-> ~ In c cols.
Proof.
  induction cols as [|c' cols IH]; [simpl; tauto|].
  rewrite count_label_cons. simpl. destruct (String.eqb c c') eqn:E.
  - apply String.eqb_eq in E. subst. split; [discriminate | intros Hn; exfalso; auto].
  - apply String.eqb_neq in E. rewrite Nat.add_0_l, IH.
    split; [intros Hn [Heq|Hin]; [congruence | auto] | auto].
Qed.

Lemma count_label_has c cols : has_column c cols = (0 <? count_label c cols)%nat.
Proof.
  destruct (count_label c cols) as [|n] eqn:E.
  - apply count_label_zero in E. now apply has_column_false.
  - apply has_column_In.
    destruct (in_dec String.string_dec c cols) as [Hin|Hn]; [exact Hin|].
    apply count_label_zero in Hn. congruence.
Qed.

Lemma count_label_NoDup c cols : List.NoDup cols -> (count_label c cols <= 1)%nat.
Proof.
  induction 1 as [|c' cols Hn _ IH]; [unfold count_label; simpl; lia|].
  rewrite count_label_cons. destruct (String.eqb c c') eqn:E; [|lia].
  apply String.eqb_eq in E. subst c'.
  apply count_label_zero in Hn. lia.
Qed.

Lemma count_label_one c cols :
  List.NoDup cols -> In c cols -> count_label c cols = 1%nat.
Proof.
  intros Hn Hin. pose proof (count_label_NoDup c cols Hn).
  destruct (count_label c cols) as [|n] eqn:E; [|lia].
  now apply count_label_zero in E.
Qed.

(** Renaming [old] to [new] moves the count of [old] onto [new]. *)
Lemma count_label_rename old new cols :
  old <> new ->
  count_label new (List.map (fun c => if String.eqb c old then new else c) cols) =
  (count_label new cols + count_label old cols)%nat.
Proof.
  intros Hne. induction cols as [|c cols IH]; [reflexivity|].
  simpl List.map. rewrite !count_label_cons, IH.
  destruct (String.eqb c old) eqn:E1.
  - apply String.eqb_eq in E1. subst c. rewrite !String.eqb_refl.
    assert (String.eqb new old = false) as -> by (apply String.eqb_neq; congruence).
    lia.
  - assert (String.eqb old c = false) as ->.
    { apply String.eqb_neq. apply String.eqb_neq in E1. congruence. }
    lia.
Qed.

Lemma add_new_In acc cs c : In c (add_new acc cs) <-> In c acc \/ In c cs.
Proof.
  revert acc. induction cs as [|c' cs IH]; intros acc; simpl; [tauto|].
  rewrite IH. destruct (has_column c' acc) eqn:E.
  - apply has_column_In in E. split; [tauto|]. intros [H|[H|H]]; subst; auto.
  - rewrite in_app_iff. simpl. tauto.
Qed.

Lemma add_new_NoDup acc cs : List.NoDup acc -> List.NoDup (add_new acc cs).
Proof.
  revert acc. induction cs as [|c' cs IH]; intros acc Hn; simpl; [exact Hn|].
  apply IH. destruct (has_column c' acc) eqn:E; [exact Hn|].
  apply has_column_false in E.
  apply List.NoDup_app; [exact Hn | repeat constructor; auto |].
  intros x Hx [<-|[]]. auto.
Qed.

Lemma union_columns_In (dfs : list DataFrame) c :
  In c (union_columns dfs) <-> exists df, In df dfs /\ In c (columns df).
Proof.
  unfold union_columns. rewrite add_new_In, in_flat_map. simpl. tauto.
Qed.

Lemma union_columns_NoDup (dfs : list DataFrame) : List.NoDup (union_columns dfs).
Proof. apply add_new_NoDup. constructor. Qed.

End Labels.

(** ** Cells *)

Section Cells.
Implicit Types (c : string) (cols : list string) (r : row) (v : value).

Lemma length_set_cell cols r c v : List.length (set_cell cols r c v) = List.length r.
Proof.
  revert r. induction cols as [|c' cols IH]; intros [|x r]; simpl; auto.
Qed.

Lemma length_cells_at cols r c :
  List.length r = List.length cols ->
  List.length (cells_at cols r c) = count_label c cols.
Proof.
  revert r. induction cols as [|c' cols IH]; intros [|x r]; simpl; try discriminate; auto.
  intros [= Hw]. rewrite count_label_cons, (String.eqb_sym c c').
  destruct (String.eqb c' c); simpl; rewrite IH by exact Hw; reflexivity.
Qed.

Lemma cells_at_head cols r c :
  cells_at cols r c <> [] -> hd NA (cells_at cols r c) = cell cols r c.
Proof.
  revert r. induction cols as [|c' cols IH]; intros [|x r]; simpl; try congruence.
  destruct (String.eqb c' c); [reflexivity | apply IH].
Qed.

(** Under a label that occurs once, a full-width row has one cell. *)
Lemma cells_at_one cols r c :
  count_label c cols = 1%nat -> List.length r = List.length cols ->
  cells_at cols r c = [cell cols r c].
Proof.
  intros H1 Hw. pose proof (length_cells_at cols r c Hw) as Hl.
  rewrite H1 in Hl. pose proof (cells_at_head cols r c) as Hh.
  destruct (cells_at cols r c) as [|v [|v' l]]; try discriminate.
  simpl in Hh. rewrite Hh by discriminate. reflexivity.
Qed.

Lemma cells_at_set_cell cols r c v :
  cells_at cols (set_cell cols r c v) c = List.map (fun _ => v) (cells_at cols r c).
Proof.
  revert r. induction cols as [|c' cols IH]; intros [|x r]; simpl; auto.
  destruct (String.eqb c' c); simpl; now rewrite IH.
Qed.

Lemma cell_set_cell_same cols r c v :
  count_label c cols = 1%nat -> List.length r = List.length cols ->
  cell cols (set_cell cols r c v) c = v.
Proof.
  intros H1 Hw.
  pose proof (cells_at_one cols (set_cell cols r c v) c H1) as Hs.
  rewrite length_set_cell, cells_at_set_cell, (cells_at_one cols r c H1 Hw) in Hs.
  specialize (Hs Hw). simpl in Hs. congruence.
Qed.

Lemma cell_set_cell_other cols r c c' v :
  c' <> c -> cell cols (set_cell cols r c v) c' = cell cols r c'.
Proof.
  intros Hne. revert r. induction cols as [|c0 cols IH]; intros [|x r]; simpl; auto.
  destruct (String.eqb c0 c') eqn:E'; [|apply IH].
  apply String.eqb_eq in E'. subst c0.
  assert (String.eqb c' c = false) as -> by now apply String.eqb_neq.
  reflexivity.
Qed.

(** A row laid out label by label is read back label by label. *)
Lemma cell_map (f : string -> value) cols c :
  In c cols -> cell cols (List.map f cols) c = f c.
Proof.
  induction cols as [|c' cols IH]; simpl; [tauto|]. intros Hin.
  destruct (String.eqb c' c) eqn:E.
  - apply String.eqb_eq in E. now subst.
  - apply String.eqb_neq in E. destruct Hin; [congruence | auto].
Qed.

Lemma cell_reindex src dst r c :
  In c dst ->
  cell dst (reindex src dst r) c = if has_column c src then cell src r c else NA.
Proof. intros Hin. unfold reindex. now rewrite cell_map. Qed.

Lemma length_reindex src dst r : List.length (reindex src dst r) = List.length dst.
Proof. unfold reindex. apply length_map. Qed.

End Cells.

(** ** The common dtype *)

Section Dtypes.
Context `{Pandas}.

Lemma isna_float64 z : isna (float64 z) = false.
Proof. unfold float64. now destruct (_ <=? _). Qed.

(** The cast turns no value into a null and no null into a value. *)
Lemma cast_isna dfs c v : isna (cast dfs c v) = isna v.
Proof.
  destruct v; try reflexivity. unfold cast.
  destruct (integer_column dfs c); [reflexivity|].
  destruct (float64_column dfs c); [apply isna_float64 | reflexivity].
Qed.

(** It changes integers only. *)
Lemma cast_other dfs c v : (forall z, v <> Int z) -> cast dfs c v = v.
Proof. destruct v; try reflexivity. intros Hv. now destruct (Hv z). Qed.

(** An integer comes out as itself or as the nearest double. *)
Lemma cast_int dfs c z : cast dfs c (Int z) = Int z \/ cast dfs c (Int z) = float64 z.
Proof.
  unfold cast. destruct (integer_column dfs c); [now left|].
  destruct (float64_column dfs c); auto.
Qed.

Lemma length_astype dfs cols (r : row) :
  List.length r = List.length cols -> List.length (astype dfs cols r) = List.length cols.
Proof.
  intros Hw. unfold astype. rewrite length_map, length_combine. lia.
Qed.

Lemma cell_astype dfs cols (r : row) c :
  cell cols (astype dfs cols r) c = cast dfs c (cell cols r c).
Proof.
  revert r. induction cols as [|c' cols IH]; intros [|v r]; try reflexivity.
  cbn [astype combine List.map cell fst snd].
  destruct (String.eqb c' c) eqn:E.
  - apply String.eqb_eq in E. now subst.
  - apply IH.
Qed.

End Dtypes.

(** ** Lists of rows *)

Section Lists.
Context {A B : Type}.

Lemma combine_map_self (f : A -> B) (l : list A) :
  combine l (List.map f l) = List.map (fun x => (x, f x)) l.
Proof. induction l as [|x l IH]; simpl; [reflexivity | now rewrite IH]. Qed.

Lemma map_nth_seq (l : list A) (d : A) :
  List.map (fun i => nth i l d) (seq 0 (List.length l)) = l.
Proof.
  induction l as [|x l IH]; [reflexivity|]. simpl.
  now rewrite <- seq_shift, List.map_map, IH.
Qed.

(** Taking the rows at a permutation of the positions permutes the rows. *)
Lemma take_perm (l : list A) (d : A) (ix : list nat) :
  Permutation ix (seq 0 (List.length l)) ->
  Permutation (List.map (fun i => nth i l d) ix) l.
Proof.
  intros Hp. etransitivity; [apply Permutation_map, Hp|].
  now rewrite map_nth_seq.
Qed.

Lemma index_relabel (l : list A) :
  List.map fst (combine (seq 0 (List.length l)) l) = seq 0 (List.length l).
Proof.
  generalize 0%nat. induction l as [|x l IH]; intros a; simpl; [reflexivity|].
  now rewrite IH.
Qed.

Lemma values_relabel (l : list A) (a : nat) :
  List.map snd (combine (seq a (List.length l)) l) = l.
Proof.
  revert a. induction l as [|x l IH]; intros a; simpl; [reflexivity|].
  now rewrite IH.
Qed.

End Lists.

(** ** The merge *)

Section Merge.
Context `{Pandas}.

Lemma concat_nonempty dfs :
  dfs <> [] ->
  concat dfs = inr {| columns := union_columns dfs; rows := relabel (merged_rows dfs) |}.
Proof. destruct dfs; [congruence | reflexivity]. Qed.

Lemma length_relabel (l : list row) : List.length (relabel l) = List.length l.
Proof. unfold relabel. rewrite length_combine, length_seq. lia. Qed.

Lemma length_flat_map_rows (f : DataFrame -> row -> row) dfs :
  List.length (flat_map (fun df => List.map (f df) (values df)) dfs) =
  list_sum (List.map len dfs).
Proof.
  induction dfs as [|df dfs IH]; [reflexivity|]. simpl.
  rewrite length_app, IH. unfold values, len. now rewrite !length_map.
Qed.

Lemma nth_error_flat_map_rows (f : DataFrame -> row -> row) dfs j k df r :
  nth_error dfs j = Some df -> nth_error (values df) k = Some r ->
  nth_error (flat_map (fun df => List.map (f df) (values df)) dfs) (rows_before dfs j + k) =
  Some (f df r).
Proof.
  revert j. induction dfs as [|d dfs IH]; intros [|j]; simpl; try discriminate.
  - intros [= ->] Hk. rewrite nth_error_app1.
    + now rewrite nth_error_map, Hk.
    + rewrite length_map. apply nth_error_Some. congruence.
  - intros Hj Hk. unfold rows_before. simpl.
    rewrite nth_error_app2; unfold len, values; rewrite !length_map; [|lia].
    replace (_ + _ - _)%nat with (rows_before dfs j + k)%nat
      by (unfold rows_before, len; lia).
    now apply IH.
Qed.

Lemma merged_width dfs :
  Forall (fun r => List.length r = List.length (union_columns dfs)) (merged_rows dfs).
Proof.
  unfold merged_rows. generalize (union_columns dfs) as cols. intros cols.
  generalize dfs at 1 as all. intros all.
  induction dfs as [|df dfs IH]; simpl; [constructor|].
  apply Forall_app. split; [|exact IH].
  apply List.Forall_forall. intros r Hr. apply in_map_iff in Hr as (r0 & <- & _).
  apply length_astype, length_reindex.
Qed.

(** Row [k] of table [j] is row (rows of the earlier tables) + [k] of the
    merged table, laid out under the merged header and cast. *)
Lemma merged_position dfs j k df r :
  nth_error dfs j = Some df -> nth_error (values df) k = Some r ->
  nth_error (merged_rows dfs) (rows_before dfs j + k) =
  Some (astype dfs (union_columns dfs) (reindex (columns df) (union_columns dfs) r)).
Proof.
  intros Hj Hk. unfold merged_rows.
  apply (nth_error_flat_map_rows
           (fun df r => astype dfs (union_columns dfs)
                               (reindex (columns df) (union_columns dfs) r)));
    assumption.
Qed.

End Merge.

(** ** Normalisation, step by step *)

Section Steps.
Context `{Pandas}.

Lemma utc_instant_cases ns :
  utc_instant ns = Aware ns 0 /\ in_bounds ns = true \/
  utc_instant ns = NaT /\ in_bounds ns = false.
Proof. unfold utc_instant. destruct (in_bounds ns); auto. Qed.

(** A converted cell is [NaT] or a UTC instant, according to [parses]. *)
Lemma to_datetime_cell_cases col v :
  (exists u, to_datetime_cell col v = Aware u 0) /\ parses col v = true \/
  to_datetime_cell col v = NaT /\ parses col v = false.
Proof.
  unfold parses, reading, to_datetime_cell, to_utc.
  destruct v as [| |z|m e|s|wall|utc off]; auto.
  - destruct (parse_datetime col (Int z)) as [[wall [off|]]|]; auto;
      match goal with |- context [utc_instant ?n] =>
        destruct (utc_instant_cases n) as [[-> ->]|[-> ->]]; eauto end.
  - destruct (parse_datetime col (Float m e)) as [[wall [off|]]|]; auto;
      match goal with |- context [utc_instant ?n] =>
        destruct (utc_instant_cases n) as [[-> ->]|[-> ->]]; eauto end.
  - destruct (parse_datetime col (Str s)) as [[wall [off|]]|]; auto;
      match goal with |- context [utc_instant ?n] =>
        destruct (utc_instant_cases n) as [[-> ->]|[-> ->]]; eauto end.
  - destruct (utc_instant_cases wall) as [[-> ->]|[-> ->]]; eauto.
  - eauto.
Qed.

Lemma isna_to_datetime_cell col v :
  isna (to_datetime_cell col v) = negb (parses col v).
Proof.
  destruct (to_datetime_cell_cases col v) as [[[u ->] ->]|[-> ->]]; reflexivity.
Qed.

Lemma null_not_parsed col v : isna v = true -> parses col v = false.
Proof. destruct v; simpl; try discriminate; reflexivity. Qed.

Lemma canonical_columns_count df :
  count_label "datetime" (columns (canonical df)) =
  (count_label "datetime" (columns df) + count_label "DATETIME" (columns df))%nat.
Proof.
  unfold canonical. rewrite (count_label_has "DATETIME").
  destruct (count_label "DATETIME" (columns df)) as [|n] eqn:E; simpl.
  - lia.
  - rewrite count_label_rename, E by discriminate. reflexivity.
Qed.

Lemma canonical_rows df : rows (canonical df) = rows df.
Proof. unfold canonical. now destruct (has_column _ _). Qed.

Lemma canonical_width df : full_width df -> full_width (canonical df).
Proof.
  unfold full_width. rewrite canonical_rows. unfold canonical.
  destruct (has_column _ _); simpl; [|auto]. now rewrite length_map.
Qed.

Lemma getitem_one df key :
  count_label key (columns df) = 1%nat ->
  getitem df key = inr (Series (List.map (fun r => cell (columns df) (snd r) key) (rows df))).
Proof. intros E. unfold getitem. now rewrite E. Qed.

Lemma setitem_converted df :
  count_label "datetime" (columns df) = 1%nat ->
  setitem df "datetime" (List.map (to_datetime_cell (datetime_column df)) (datetime_column df))
  = {| columns := columns df; rows := List.map (convert_row df) (rows df) |}.
Proof.
  intros E. unfold setitem. rewrite count_label_has, E. simpl.
  unfold datetime_column at 2. rewrite List.map_map, combine_map_self, List.map_map.
  reflexivity.
Qed.

Lemma converted_cell df r :
  count_label "datetime" (columns df) = 1%nat ->
  List.length (snd r) = List.length (columns df) ->
  cell (columns df) (snd (convert_row df r)) "datetime" =
  to_datetime_cell (datetime_column df) (datetime_of df r).
Proof. intros E Hw. unfold convert_row. simpl. now apply cell_set_cell_same. Qed.

Lemma dropna_converted df :
  count_label "datetime" (columns df) = 1%nat ->
  full_width df ->
  dropna {| columns := columns df; rows := List.map (convert_row df) (rows df) |} "datetime"
  = inr {| columns := columns df; rows := surviving df |}.
Proof.
  intros E Hw. unfold dropna. cbn [columns rows]. rewrite count_label_has, E. simpl.
  do 2 f_equal. unfold surviving, full_width in *.
  induction Hw as [|r l Hr _ IH]; [reflexivity|]. simpl.
  rewrite cells_at_one; [|exact E|simpl; now rewrite length_set_cell].
  rewrite cell_set_cell_same by assumption. simpl.
  rewrite orb_false_r, isna_to_datetime_cell, negb_involutive.
  destruct (parses _ _); simpl; now rewrite IH.
Qed.

End Steps.

(** ** The sort *)

Section Sorting.
Context `{Pandas}.

Lemma argsort_lt ks i : In i (argsort ks) -> (i < List.length ks)%nat.
Proof.
  intros Hi. apply (Permutation_in _ (argsort_perm ks)) in Hi.
  apply in_seq in Hi. lia.
Qed.

Lemma filter_all {A} (p : A -> bool) (l : list A) :
  Forall (fun x => p x = true) l -> List.filter p l = l.
Proof. induction 1 as [|x l Hx _ IH]; simpl; [reflexivity|]. now rewrite Hx, IH. Qed.

Lemma filter_none {A} (p : A -> bool) (l : list A) :
  Forall (fun x => p x = false) l -> List.filter p l = [].
Proof. induction 1 as [|x l Hx _ IH]; simpl; [reflexivity|]. now rewrite Hx. Qed.

Lemma nth_map_Some (zs : list Z) :
  Forall (fun i => is_some (nth i (List.map Some zs) None) = true)
         (seq 0 (List.length zs)).
Proof.
  apply List.Forall_forall. intros i Hi. apply in_seq in Hi.
  rewrite (nth_indep _ None (Some 0)) by (rewrite length_map; lia).
  now rewrite (map_nth Some zs 0 i).
Qed.

(** With a key at every position, [nargsort] is [argsort]. *)
Lemma nargsort_all_some zs : nargsort (List.map Some zs) = argsort zs.
Proof.
  unfold nargsort. rewrite length_map.
  rewrite (filter_all _ _ (nth_map_Some zs)).
  rewrite filter_none.
  2:{ eapply List.Forall_impl; [|apply (nth_map_Some zs)]. simpl. intros i ->. reflexivity. }
  assert (flat_map (fun k : option Z => match k with Some z => [z] | None => [] end)
                   (List.map Some zs) = zs) as ->.
  { induction zs as [|z zs IH]; simpl; [reflexivity | now rewrite IH]. }
  rewrite app_nil_r. rewrite <- (List.map_id (argsort zs)) at 2.
  apply map_ext_in. intros j Hj. apply argsort_lt in Hj.
  rewrite seq_nth by exact Hj. reflexivity.
Qed.

Lemma keys_all_some df :
  Forall (fun r => utc_timestamp (datetime_of df r)) (rows df) ->
  List.map (fun r => sort_key (cell (columns df) (snd r) "datetime")) (rows df) =
  List.map Some (List.map (key_of df) (rows df)).
Proof.
  intros Hu. rewrite List.map_map. apply map_ext_Forall.
  eapply List.Forall_impl; [|exact Hu]. intros r [u Hr]. unfold key_of.
  unfold datetime_of in *. now rewrite Hr.
Qed.

(** Sorting a table whose timestamp cells are all UTC instants permutes
    its rows and leaves the instants in non-decreasing order. *)
Lemma sort_values_sorted df :
  count_label "datetime" (columns df) = 1%nat ->
  Forall (fun r => utc_timestamp (datetime_of df r)) (rows df) ->
  exists out,
    sort_values df "datetime" = inr out /\
    columns out = columns df /\
    Permutation (rows out) (rows df) /\
    exists ks, List.map (datetime_of out) (rows out) = List.map (fun u => Aware u 0) ks /\
               Sorted Z.le ks.
Proof.
  intros E Hu. unfold sort_values. rewrite E, (keys_all_some df Hu), nargsort_all_some.
  set (zs := List.map (key_of df) (rows df)).
  assert (Hlen : List.length zs = List.length (rows df)) by (unfold zs; apply length_map).
  eexists. split; [reflexivity|]. cbn [take columns rows]. split; [reflexivity|]. split.
  - apply take_perm. rewrite <- Hlen. apply argsort_perm.
  - exists (List.map (fun i => nth i zs 0) (argsort zs)). split; [|apply argsort_sorted].
    rewrite !List.map_map. apply map_ext_in. intros i Hi. apply argsort_lt in Hi.
    unfold datetime_of at 1. cbn [take columns].
    assert (Hin : In (nth i (rows df) (O, [])) (rows df)) by (apply nth_In; lia).
    rewrite List.Forall_forall in Hu. destruct (Hu _ Hin) as [u Hr].
    change (cell (columns df) (snd ?r) "datetime") with (datetime_of df r).
    rewrite Hr. f_equal.
    unfold zs. rewrite (nth_indep _ 0 (key_of df (O, []))) by (rewrite length_map; lia).
    rewrite map_nth. unfold key_of. now rewrite Hr.
Qed.

Lemma surviving_utc df :
  count_label "datetime" (columns df) = 1%nat ->
  full_width df ->
  Forall (fun r => utc_timestamp (cell (columns df) (snd r) "datetime")) (surviving df).
Proof.
  intros E Hw. unfold surviving, full_width in *.
  apply List.Forall_forall. intros r' Hin.
  apply in_map_iff in Hin as (r & <- & Hr). apply filter_In in Hr as [Hr Hp].
  rewrite List.Forall_forall in Hw.
  rewrite converted_cell by auto.
  destruct (to_datetime_cell_cases (datetime_column df) (datetime_of df r))
    as [[Hu _]|[_ Hn]]; [exact Hu | congruence].
Qed.

End Sorting.

(** ** Running [preprocess_data] *)

Ltac run_monad :=
  cbv [mbind mret M_bind M_ret get_self get_world put_self put_world logger set_combined
       combined lift raise try_except dataframes_append errors_append glob];
  cbn [fst snd combined_df dataframes directory errors fs db_fault write_fault store log].

Section Preprocess.
Context `{Pandas}.

Lemma Forall_relabel (P : row -> Prop) (l : list row) a :
  Forall P l -> Forall (fun r => P (snd r)) (combine (seq a (List.length l)) l).
Proof.
  intros Hf. revert a. induction Hf as [|r l Hr _ IH]; intros a; simpl; constructor; auto.
Qed.

Lemma concat_width dfs merged : concat dfs = inr merged -> full_width merged.
Proof.
  destruct dfs as [|d dfs]; [discriminate|]. intros [= <-].
  unfold full_width, relabel. cbn [columns rows].
  apply (Forall_relabel (fun r => List.length r = List.length (union_columns (d :: dfs)))).
  apply (merged_width (d :: dfs)).
Qed.

Lemma concat_columns dfs merged :
  concat dfs = inr merged -> columns merged = union_columns dfs.
Proof. destruct dfs; [discriminate|]. now intros [= <-]. Qed.

Lemma log_twice w a b :
  {| fs := fs w; db_fault := db_fault w; write_fault := write_fault w;
     store := store w; log := ((log w ++ [a]) ++ [b])%list |} = logged w [a; b].
Proof. unfold logged. now rewrite <- app_assoc. Qed.

(** No table loaded: a warning, nothing else. *)
Lemma preprocess_data_nothing w o :
  dataframes o = [] ->
  preprocess_data (w, o) = Return tt (logged w [(WARNING, NoDataframes)], o).
Proof. intros E. unfold preprocess_data. run_monad. now rewrite E. Qed.

(** One timestamp column after the rename: the method returns, and the
    table it leaves is the sort of the surviving rows. *)
Lemma preprocess_data_returns w o merged :
  dataframes o <> [] ->
  concat (tables o) = inr merged ->
  count_label "datetime" (columns (canonical merged)) = 1%nat ->
  exists out,
    sort_values {| columns := columns (canonical merged);
                   rows := surviving (canonical merged) |} "datetime" = inr out /\
    preprocess_data (w, o) =
    Return tt (logged w [(INFO, Preprocessing); (INFO, PreprocessingComplete (len out))],
               with_combined o out).
Proof.
  intros Hne Hc E.
  pose proof (canonical_width _ (concat_width _ _ Hc)) as Hw.
  destruct (sort_values_sorted
              {| columns := columns (canonical merged);
                 rows := surviving (canonical merged) |} E (surviving_utc _ E Hw))
    as (out & Hs & _).
  exists out. split; [exact Hs|].
  unfold preprocess_data, tables in *. run_monad.
  destruct (dataframes o) as [|d ds] eqn:Hd; [congruence|].
  rewrite Hc. run_monad.
  unfold canonical in *.
  destruct (has_column "DATETIME" (columns merged)); run_monad;
    rewrite (getitem_one _ _ E); run_monad; cbn [to_datetime];
    change (List.map (fun r => cell (columns ?df) (snd r) "datetime") (rows ?df))
      with (datetime_column df);
    rewrite (setitem_converted _ E), (dropna_converted _ E Hw), Hs;
    run_monad; now rewrite log_twice.
Qed.

(** No timestamp column: [df['datetime']] raises [KeyError]. *)
Lemma preprocess_data_no_column w o merged :
  dataframes o <> [] ->
  concat (tables o) = inr merged ->
  count_label "datetime" (columns (canonical merged)) = O ->
  preprocess_data (w, o) =
  Raise (KeyError "datetime")
        (logged w [(INFO, Preprocessing)], with_combined o (canonical merged)).
Proof.
  intros Hne Hc E. unfold preprocess_data, tables in *. run_monad.
  destruct (dataframes o) as [|d ds] eqn:Hd; [congruence|].
  rewrite Hc. run_monad.
  unfold canonical in *.
  destruct (has_column "DATETIME" (columns merged)); run_monad;
    unfold getitem; rewrite E; reflexivity.
Qed.

(** Both [datetime] and [DATETIME] in the merged table: after the rename
    two columns carry the label, [df['datetime']] is a frame, and
    [to_datetime] refuses it. *)
Lemma preprocess_data_two_columns w o merged n :
  dataframes o <> [] ->
  concat (tables o) = inr merged ->
  count_label "datetime" (columns (canonical merged)) = S (S n) ->
  preprocess_data (w, o) =
  Raise (ValueError "cannot assemble with duplicate keys")
        (logged w [(INFO, Preprocessing)], with_combined o (canonical merged)).
Proof.
  intros Hne Hc E. unfold preprocess_data, tables in *. run_monad.
  destruct (dataframes o) as [|d ds] eqn:Hd; [congruence|].
  rewrite Hc. run_monad.
  unfold canonical in *.
  destruct (has_column "DATETIME" (columns merged)); run_monad;
    unfold getitem; rewrite E; reflexivity.
Qed.

End Preprocess.

(** ** The timestamp column of the merged table *)

Section Schema.
Context `{Pandas}.

Lemma mentions_union c dfs : mentions c dfs = has_column c (union_columns dfs).
Proof.
  apply eq_true_iff_eq. unfold mentions.
  rewrite has_column_In, union_columns_In, existsb_exists.
  split; intros (df & Hdf & Hc); exists df; (split; [exact Hdf|]);
    now apply has_column_In.
Qed.

Lemma count_label_union c dfs :
  count_label c (union_columns dfs) = if mentions c dfs then 1%nat else O.
Proof.
  rewrite mentions_union. destruct (has_column c (union_columns dfs)) eqn:E.
  - apply count_label_one; [apply union_columns_NoDup | now apply has_column_In].
  - apply count_label_zero. now apply has_column_false.
Qed.

Lemma timestamp_columns dfs merged :
  concat dfs = inr merged ->
  count_label "datetime" (columns (canonical merged)) =
  ((if mentions "datetime" dfs then 1 else 0) +
   (if mentions "DATETIME" dfs then 1 else 0))%nat.
Proof.
  intros Hc. rewrite canonical_columns_count, (concat_columns _ _ Hc).
  now rewrite !count_label_union.
Qed.

Lemma one_spelling_count dfs merged :
  concat dfs = inr merged ->
  one_spelling dfs = true ->
  count_label "datetime" (columns (canonical merged)) = 1%nat.
Proof.
  intros Hc Hx. rewrite (timestamp_columns _ _ Hc). unfold one_spelling in Hx.
  destruct (mentions "datetime" dfs), (mentions "DATETIME" dfs); simpl in *; congruence.
Qed.

End Schema.

Section Normalised.
Context `{Pandas}.

(** What the method establishes whenever the merged table has one
    timestamp column: the table it leaves has the columns of the merged
    table (after the rename), its rows are the surviving rows in some
    order, and that order makes the instants non-decreasing. *)
Lemma preprocess_data_normalises (s : State) :
  dataframes (snd s) <> [] ->
  one_spelling (tables (snd s)) = true ->
  exists merged out ks,
    concat (tables (snd s)) = inr merged /\
    preprocessed s out /\
    columns out = columns (canonical merged) /\
    count_label "datetime" (columns (canonical merged)) = 1%nat /\
    full_width (canonical merged) /\
    Permutation (rows out) (surviving (canonical merged)) /\
    List.map (datetime_of out) (rows out) = List.map (fun u => Aware u 0) ks /\
    Sorted Z.le ks.
Proof.
  destruct s as [w o]. cbn [fst snd]. intros Hne Hx.
  assert (Hd : tables o <> []).
  { unfold tables. destruct (dataframes o); [congruence | discriminate]. }
  pose proof (concat_nonempty _ Hd) as Hc.
  set (merged := mkFrame _ _) in Hc.
  pose proof (one_spelling_count _ _ Hc Hx) as E.
  pose proof (canonical_width _ (concat_width _ _ Hc)) as Hw.
  destruct (preprocess_data_returns w o _ Hne Hc E) as (out & Hs & Hrun).
  destruct (sort_values_sorted
              {| columns := columns (canonical merged);
                 rows := surviving (canonical merged) |} E (surviving_utc _ E Hw))
    as (out' & Hs' & Hcols & Hperm & ks & Hks & Hsorted).
  rewrite Hs in Hs'. injection Hs' as <-.
  exists merged, out, ks. repeat split; auto.
Qed.

End Normalised.

(** ** The merged table *)

(** C6.  For every non-empty list of loaded tables, as the readers deliver
    them, [preprocess_data] goes on with one merged table: it is the table
    left in [self.combined_df] (with [DATETIME] renamed) when the method
    raises, and the table whose rows that have a timestamp make up the
    result when it returns.  The merged table has as many rows as the
    tables together and as columns the union of theirs, each once; its index
    is [0 .. n-1]; row [k] of table [j] sits at position (rows of the earlier
    tables) + [k], with a null under every column its table does not have
    and, under each column it has, its own cell under the dtype of the merged
    column.  That dtype leaves nulls null and values values and changes
    integers only: an integer stays as it is or, where the merged column is
    a column of floats, becomes the nearest double. *)
Theorem preprocess_data_merges `{Pandas} (s : State) :
  dataframes (snd s) <> [] ->
  forallb well_formed (tables (snd s)) = true ->
  exists merged,
    concat (tables (snd s)) = inr merged /\
    match mentions "datetime" (tables (snd s)), mentions "DATETIME" (tables (snd s)) with
    | false, false =>
        preprocess_data s =
        Raise (KeyError "datetime")
              (logged (fst s) [(INFO, Preprocessing)],
               with_combined (snd s) (canonical merged))
    | true, true =>
        preprocess_data s =
        Raise (ValueError "cannot assemble with duplicate keys")
              (logged (fst s) [(INFO, Preprocessing)],
               with_combined (snd s) (canonical merged))
    | _, _ =>
        exists out,
          preprocessed s out /\
          columns out = columns (canonical merged) /\
          Permutation (rows out) (surviving (canonical merged))
    end /\
    len merged = list_sum (List.map len (tables (snd s))) /\
    List.NoDup (columns merged) /\
    (forall c, In c (columns merged) <->
               exists df, In df (tables (snd s)) /\ In c (columns df)) /\
    index merged = seq 0 (len merged) /\
    (forall j k df r,
        nth_error (tables (snd s)) j = Some df -> nth_error (values df) k = Some r ->
        exists r',
          nth_error (values merged) (rows_before (tables (snd s)) j + k) = Some r' /\
          List.length r' = List.length (columns merged) /\
          forall c, In c (columns merged) ->
                    if has_column c (columns df)
                    then cell (columns merged) r' c =
                         cast (tables (snd s)) c (cell (columns df) r c)
                    else isna (cell (columns merged) r' c) = true) /\
    (forall c v,
        isna (cast (tables (snd s)) c v) = isna v /\
        ((forall z, v <> Int z) -> cast (tables (snd s)) c v = v) /\
        (forall z, v = Int z ->
                   cast (tables (snd s)) c v = Int z \/
                   cast (tables (snd s)) c v = float64 z)).
Proof.
  destruct s as [w o]. cbn [fst snd]. intros Hne _.
  assert (Ht : tables o <> []).
  { unfold tables. destruct (dataframes o); [congruence | discriminate]. }
  pose proof (concat_nonempty _ Ht) as Hc.
  set (merged := mkFrame _ _) in Hc. exists merged. split; [exact Hc|]. split.
  { pose proof (timestamp_columns _ _ Hc) as Hcount.
    assert (Hret : one_spelling (tables o) = true ->
                   exists out, preprocessed (w, o) out /\
                               columns out = columns (canonical merged) /\
                               Permutation (rows out) (surviving (canonical merged))).
    { intros Hx.
      destruct (preprocess_data_normalises (w, o) Hne Hx)
        as (merged' & out & ks & Hc' & Hrun & Hcols & _ & _ & Hperm & _ & _).
      cbn [fst snd] in Hc'. rewrite Hc in Hc'. injection Hc' as <-.
      exists out. auto. }
    unfold one_spelling in Hret.
    destruct (mentions "datetime" (tables o)) eqn:Hl, (mentions "DATETIME" (tables o)) eqn:Hu;
      simpl in Hcount.
    - apply (preprocess_data_two_columns w o merged O Hne Hc Hcount).
    - apply Hret. reflexivity.
    - apply Hret. reflexivity.
    - apply (preprocess_data_no_column w o merged Hne Hc Hcount). }
  unfold len, index, values, merged. cbn [columns rows].
  rewrite length_relabel. unfold relabel. rewrite index_relabel, values_relabel.
  split; [apply (length_flat_map_rows
                   (fun df r => astype (tables o) (union_columns (tables o))
                                       (reindex (columns df) (union_columns (tables o)) r)))|].
  split; [apply union_columns_NoDup|].
  split; [apply union_columns_In|].
  split; [reflexivity|].
  split.
  - intros j k df r Hj Hk. eexists. split; [|split].
    + apply (merged_position _ _ _ _ _ Hj Hk).
    + apply length_astype, length_reindex.
    + intros c Hc'. rewrite cell_astype, cell_reindex by exact Hc'.
      destruct (has_column c (columns df)); reflexivity.
  - intros c v. split; [apply cast_isna|]. split; [apply cast_other|].
    intros z ->. apply cast_int.
Qed.

(** ** After [preprocess_data] *)

Section Claims.
Context `{Pandas}.

Lemma map_eq_Forall {A B C} (f : A -> C) (g : B -> C) (l : list A) (ks : list B) :
  List.map f l = List.map g ks -> Forall (fun x => exists k, f x = g k) l.
Proof.
  revert ks. induction l as [|x l IH]; intros [|k ks] E; simpl in E;
    try discriminate; constructor.
  - exists k. congruence.
  - apply (IH ks). congruence.
Qed.

Lemma length_filter_map {A B} (f : A -> B) (p : B -> bool) (l : list A) :
  List.length (List.filter p (List.map f l)) =
  List.length (List.filter (fun x => p (f x)) l).
Proof.
  induction l as [|x l IH]; simpl; [reflexivity|].
  destruct (p (f x)); simpl; now rewrite IH.
Qed.

Lemma label_determines_row {A B} (l : list (A * B)) (x y : A * B) :
  List.NoDup (List.map fst l) -> In x l -> In y l -> fst x = fst y -> x = y.
Proof.
  induction l as [|z l IH]; simpl; [tauto|]. intros Hn Hx Hy Hxy.
  inversion Hn as [|? ? Hz Hn']; subst.
  destruct Hx as [->|Hx], Hy as [->|Hy]; auto.
  - exfalso. apply Hz. rewrite Hxy. now apply in_map.
  - exfalso. apply Hz. rewrite <- Hxy. now apply in_map.
Qed.

Lemma concat_index dfs merged :
  concat dfs = inr merged -> index merged = seq 0 (len merged).
Proof.
  destruct dfs as [|d dfs]; [discriminate|]. intros [= <-].
  unfold index, len, relabel. cbn [rows].
  now rewrite index_relabel, length_combine, length_seq, Nat.min_id.
Qed.

(** The index labels that survive are those of the rows whose timestamp
    cell parses. *)
Lemma surviving_labels (merged out : DataFrame) :
  Permutation (rows out) (surviving (canonical merged)) ->
  Permutation (index out)
              (List.map fst
                 (List.filter (fun r => parses (datetime_column (canonical merged))
                                               (datetime_of (canonical merged) r))
                              (rows merged))).
Proof.
  intros Hperm. unfold surviving in Hperm. rewrite canonical_rows in Hperm.
  unfold index. rewrite (Permutation_map fst Hperm), List.map_map. reflexivity.
Qed.

(** C5.  For every non-empty list of loaded tables whose merged table has
    one timestamp column (the case in which the method returns), the table
    [preprocess_data] leaves holds, in every row, a [datetime] that is an
    instant shown in UTC: never a null, never [NaT], never a naive or an
    offset timestamp.  A merged row whose timestamp cell is null or does not
    parse is not in it: its index label is gone. *)
Theorem preprocess_data_timestamps_utc (s : State) :
  dataframes (snd s) <> [] ->
  forallb well_formed (tables (snd s)) = true ->
  one_spelling (tables (snd s)) = true ->
  exists merged out,
    concat (tables (snd s)) = inr merged /\
    preprocessed s out /\
    Forall (fun r => utc_timestamp (datetime_of out r) /\
                     isna (datetime_of out r) = false) (rows out) /\
    forall r, In r (rows merged) ->
              parses (datetime_column (canonical merged))
                     (datetime_of (canonical merged) r) = false ->
              ~ In (fst r) (index out).
Proof.
  intros Hne _ Hx.
  destruct (preprocess_data_normalises s Hne Hx)
    as (merged & out & ks & Hc & Hrun & _ & _ & _ & Hperm & Hks & _).
  exists merged, out. split; [exact Hc|]. split; [exact Hrun|]. split.
  - eapply List.Forall_impl; [|exact (map_eq_Forall _ _ _ _ Hks)].
    intros r [u Hr]. rewrite Hr. split; [now exists u | reflexivity].
  - intros r Hr Hbad Hin.
    apply (Permutation_in _ (surviving_labels _ _ Hperm)) in Hin.
    apply in_map_iff in Hin as (r2 & Hlabel & Hr2).
    apply filter_In in Hr2 as [Hr2 Hgood].
    assert (r2 = r) as ->.
    { apply (label_determines_row (rows merged)); auto.
      change (List.map fst (rows merged)) with (index merged).
      rewrite (concat_index _ _ Hc). apply seq_NoDup. }
    congruence.
Qed.

(** C1, as the code has it.  For every non-empty list of loaded tables
    whose merged table has one timestamp column, the rows [preprocess_data]
    leaves are the surviving rows of the merged table, rearranged, and their
    instants are in non-decreasing order.  Where two rows have the same
    instant, their order is the one the default index sort gave them. *)
Theorem preprocess_data_chronological (s : State) :
  dataframes (snd s) <> [] ->
  forallb well_formed (tables (snd s)) = true ->
  one_spelling (tables (snd s)) = true ->
  exists merged out ks,
    concat (tables (snd s)) = inr merged /\
    preprocessed s out /\
    Permutation (rows out) (surviving (canonical merged)) /\
    List.map (datetime_of out) (rows out) = List.map (fun u => Aware u 0) ks /\
    StronglySorted Z.le ks.
Proof.
  intros Hne _ Hx.
  destruct (preprocess_data_normalises s Hne Hx)
    as (merged & out & ks & Hc & Hrun & _ & _ & _ & Hperm & Hks & Hsorted).
  exists merged, out, ks. repeat split; auto.
  apply Sorted_StronglySorted; [|exact Hsorted].
  intros x y z. apply Z.le_trans.
Qed.

(** C8.  For every non-empty list of loaded tables whose merged table has
    one timestamp column, whatever the cells hold, [preprocess_data]
    returns; the rows it removed are as many as the merged rows whose
    timestamp cell does not parse, the index labels it kept are those of the
    rows whose cell parses, a null cell never parses, and a cell that does
    not parse is converted to [NaT]. *)
Theorem preprocess_data_drops_unparsed (s : State) :
  dataframes (snd s) <> [] ->
  forallb well_formed (tables (snd s)) = true ->
  one_spelling (tables (snd s)) = true ->
  exists merged out,
    concat (tables (snd s)) = inr merged /\
    preprocessed s out /\
    let col := datetime_column (canonical merged) in
    (len out + List.length (List.filter (fun v => negb (parses col v)) col) = len merged)%nat /\
    Permutation (index out)
                (List.map fst (List.filter
                                 (fun r => parses col (datetime_of (canonical merged) r))
                                 (rows merged))) /\
    (forall v, isna v = true -> parses col v = false) /\
    (forall v, parses col v = false -> to_datetime_cell col v = NaT).
Proof.
  intros Hne _ Hx.
  destruct (preprocess_data_normalises s Hne Hx)
    as (merged & out & ks & Hc & Hrun & _ & _ & _ & Hperm & _ & _).
  exists merged, out. split; [exact Hc|]. split; [exact Hrun|]. cbv zeta.
  repeat split.
  - unfold surviving in Hperm. rewrite canonical_rows in Hperm.
    unfold len. rewrite (Permutation_length Hperm), length_map.
    unfold datetime_column. rewrite canonical_rows, length_filter_map.
    apply List.filter_length.
  - now apply surviving_labels.
  - intros v. apply null_not_parsed.
  - intros v Hbad.
    destruct (to_datetime_cell_cases (datetime_column (canonical merged)) v)
      as [[_ Hgood]|[Hnat _]]; [congruence | exact Hnat].
Qed.

(** C7.  For every non-empty list of loaded tables whose merged table has
    one timestamp column and every row of the merged table: when its
    timestamp cell reads as a wall clock without offset, the row is in the
    result under its index label with that wall clock as the UTC instant;
    when it reads as a wall clock with an offset, the row is in the result
    with the instant wall clock minus offset, shown in UTC.  (In both cases
    the instant is one that fits the 64-bit nanosecond range.) *)
Theorem preprocess_data_converts_to_utc (s : State) :
  dataframes (snd s) <> [] ->
  forallb well_formed (tables (snd s)) = true ->
  one_spelling (tables (snd s)) = true ->
  exists merged out,
    concat (tables (snd s)) = inr merged /\
    preprocessed s out /\
    forall r, In r (rows merged) ->
      let col := datetime_column (canonical merged) in
      let v := datetime_of (canonical merged) r in
      (forall wall, reading col v = Some (wall, None) -> in_bounds wall = true ->
         exists r', In r' (rows out) /\ fst r' = fst r /\
                    datetime_of out r' = Aware wall 0) /\
      (forall wall off, reading col v = Some (wall, Some off) ->
         in_bounds (wall - off) = true ->
         exists r', In r' (rows out) /\ fst r' = fst r /\
                    datetime_of out r' = Aware (wall - off) 0).
Proof.
  intros Hne _ Hx.
  destruct (preprocess_data_normalises s Hne Hx)
    as (merged & out & ks & Hc & Hrun & Hcols & E & Hw & Hperm & _ & _).
  exists merged, out. split; [exact Hc|]. split; [exact Hrun|].
  intros r Hr. cbv zeta.
  set (col := datetime_column (canonical merged)).
  set (v := datetime_of (canonical merged) r).
  rewrite <- canonical_rows in Hr.
  assert (Hwr : List.length (snd r) = List.length (columns (canonical merged))).
  { unfold full_width in Hw. rewrite List.Forall_forall in Hw. now apply Hw. }
  assert (Hin : parses col v = true ->
                In (convert_row (canonical merged) r) (rows out) /\
                datetime_of out (convert_row (canonical merged) r) = to_datetime_cell col v).
  { intros Hp. split.
    - apply (Permutation_in _ (Permutation_sym Hperm)). unfold surviving.
      apply in_map, filter_In. split; [exact Hr | exact Hp].
    - unfold datetime_of at 1. rewrite Hcols. now apply converted_cell. }
  split.
  - intros wall Hread Hb.
    destruct Hin as [Hin Hcell].
    { unfold parses. destruct v; try (now rewrite Hread); discriminate. }
    exists (convert_row (canonical merged) r). repeat split; [exact Hin|].
    rewrite Hcell. unfold to_datetime_cell, reading in *.
    destruct v; try discriminate; try (rewrite Hread; simpl);
      try injection Hread as ->; unfold utc_instant; now rewrite Hb.
  - intros wall off Hread Hb.
    destruct Hin as [Hin Hcell].
    { unfold parses. destruct v; try (now rewrite Hread); reflexivity. }
    exists (convert_row (canonical merged) r). repeat split; [exact Hin|].
    rewrite Hcell. unfold to_datetime_cell, reading in *.
    destruct v; try discriminate; try (rewrite Hread; simpl; unfold utc_instant; now rewrite Hb).
    injection Hread as <- <-. f_equal. lia.
Qed.

End Claims.

(** ** Running [load_files] *)

Section Load.

Lemma logged_nil w : logged w [] = w.
Proof. destruct w. unfold logged. simpl. now rewrite app_nil_r. Qed.

Lemma logged_logged w l l' : logged (logged w l) l' = logged w (l ++ l').
Proof. unfold logged. simpl. now rewrite app_assoc. Qed.

Lemma extended_nil o : extended o [] [] = o.
Proof. destruct o. unfold extended. simpl. now rewrite !app_nil_r. Qed.

Lemma extended_extended o ts es ts' es' :
  extended (extended o ts es) ts' es' = extended o (ts ++ ts') (es ++ es').
Proof. unfold extended. simpl. now rewrite !app_assoc. Qed.

Lemma load_file_step file w o :
  load_file file (w, o) =
  Return tt (logged w (load_log [file]),
             extended o (loaded_tables [file]) (load_errors [file])).
Proof.
  unfold load_file, load_log, loaded_tables, load_errors, attempt. simpl.
  destruct (String.eqb (lower (suffix (name file))) ".csv").
  - destruct (read_csv file) as [e|df]; run_monad; unfold extended, logged; simpl;
      now rewrite ?app_nil_r.
  - destruct (String.eqb (lower (suffix (name file))) ".parquet" ||
              (String.eqb (lower (suffix (name file))) ".pq" || false)).
    + destruct (read_parquet file) as [e|df]; run_monad; unfold extended, logged; simpl;
        now rewrite ?app_nil_r.
    + run_monad. simpl. now rewrite logged_nil, extended_nil.
Qed.

Lemma for_each_load files w o :
  for_each files load_file (w, o) =
  Return tt (logged w (load_log files),
             extended o (loaded_tables files) (load_errors files)).
Proof.
  revert w o. induction files as [|file files IH]; intros w o.
  - simpl. unfold mret, M_ret. now rewrite logged_nil, extended_nil.
  - cbn [for_each]. unfold mbind, M_bind. rewrite load_file_step, IH.
    rewrite logged_logged, extended_extended.
    unfold load_log, loaded_tables, load_errors. simpl. now rewrite !app_nil_r.
Qed.

(** [load_files] always returns: it appends what it could read to
    [self.dataframes], what it could not to [self.errors], and touches
    nothing else but the log. *)
Lemma load_files_returns w o :
  load_files (w, o) =
  Return tt (logged w ((INFO, Scanning (directory o)) :: load_log (listing (w, o))),
             extended o (loaded_tables (listing (w, o))) (load_errors (listing (w, o)))).
Proof.
  unfold load_files, listing. run_monad. rewrite for_each_load.
  change (mkWorld (fs w) (db_fault w) (write_fault w) (store w)
                  (log w ++ [(INFO, Scanning (directory o))]))
    with (logged w [(INFO, Scanning (directory o))]).
  now rewrite logged_logged.
Qed.

End Load.

(** ** Running [create_database] and [run] *)

Section Run.
Context `{Pandas}.

(** Nothing to write: an error in the log, the store as it was. *)
Lemma create_database_nothing db_path table_name w o :
  combined_df o = None \/ (exists df, combined_df o = Some df /\ empty df = true) ->
  create_database db_path table_name (w, o) = Return tt (logged w [(ERROR, NoData)], o).
Proof.
  intros [E|(df & E & Hempty)]; unfold create_database; run_monad; rewrite E;
    [|rewrite Hempty]; reflexivity.
Qed.

(** The write depends on the world through the two kinds of faults only. *)
Lemma refusal_frame w w' db_path table_name df :
  db_fault w' = db_fault w -> write_fault w' = write_fault w ->
  refusal w' db_path table_name df = refusal w db_path table_name df.
Proof. intros Hf Hw. unfold refusal, write_failure. now rewrite Hf, Hw. Qed.

(** [connect] or the write raises: the handler logs it and the method
    returns.  What the write had done to the store stays done. *)
Lemma create_database_fails db_path table_name w o df e :
  combined_df o = Some df -> empty df = false ->
  refusal w db_path table_name df = Some e ->
  exists w',
    create_database db_path table_name (w, o) = Return tt (w', o) /\
    fs w' = fs w /\ db_fault w' = db_fault w /\ write_fault w' = write_fault w /\
    log w' = (log w ++ [(INFO, WritingData db_path);
                        (ERROR, DatabaseCreationFailed e)])%list.
Proof.
  intros E Hempty Hr. unfold create_database, to_sql. run_monad.
  rewrite E, Hempty. run_monad. unfold refusal in Hr.
  destruct (db_fault w !! db_path) as [e'|].
  - injection Hr as ->. run_monad. eexists. split; [reflexivity|].
    cbn [fs db_fault write_fault log]. now rewrite <- app_assoc.
  - destruct (write_failure _ _ _ _) as [[e' reached]|]; [|discriminate].
    injection Hr as ->. run_monad. unfold with_store.
    cbn [fs db_fault write_fault store log]. eexists. split; [reflexivity|].
    cbn [fs db_fault write_fault log]. now rewrite <- app_assoc.
Qed.

Lemma create_database_writes db_path table_name w o df :
  combined_df o = Some df -> empty df = false ->
  refusal w db_path table_name df = None ->
  create_database db_path table_name (w, o) =
  Return tt (written w db_path table_name df, o).
Proof.
  intros E Hempty Hr. unfold create_database, to_sql. run_monad.
  rewrite E, Hempty. run_monad. unfold refusal in Hr.
  destruct (db_fault w !! db_path) as [e'|]; [discriminate|].
  destruct (write_failure _ _ _ _) as [[e' reached]|]; [discriminate|].
  run_monad. unfold written, with_store. cbn [fs db_fault write_fault store log].
  now rewrite <- app_assoc.
Qed.

(** [create_database] never raises and changes nothing of the instance. *)
Lemma create_database_returns db_path table_name w o :
  exists w', create_database db_path table_name (w, o) = Return tt (w', o) /\
             fs w' = fs w /\ db_fault w' = db_fault w /\ write_fault w' = write_fault w.
Proof.
  destruct (combined_df o) as [df|] eqn:E.
  - destruct (empty df) eqn:Hempty.
    + eexists. split; [apply create_database_nothing; eauto|]. now repeat split.
    + destruct (refusal w db_path table_name df) as [e|] eqn:Hr.
      * destruct (create_database_fails _ _ _ _ _ _ E Hempty Hr)
          as (w' & Hrun & Hfs & Hf & Hw & _).
        exists w'. auto.
      * eexists. split; [eapply create_database_writes; eauto|]. now repeat split.
  - eexists. split; [apply create_database_nothing; eauto|]. now repeat split.
Qed.

Lemma run_returns db_path table_name s s1 s2 s3 :
  load_files s = Return tt s1 ->
  preprocess_data s1 = Return tt s2 ->
  create_database db_path table_name s2 = Return tt s3 ->
  run db_path table_name s = Return (row_count (snd s3)) s3.
Proof.
  intros H1 H2 H3. unfold run, mbind, M_bind. rewrite H1, H2, H3. reflexivity.
Qed.

Lemma run_raises db_path table_name s s1 s2 e :
  load_files s = Return tt s1 ->
  preprocess_data s1 = Raise e s2 ->
  run db_path table_name s = Raise e s2.
Proof.
  intros H1 H2. unfold run, mbind, M_bind. rewrite H1, H2. reflexivity.
Qed.

(** When [preprocess_data] returns, it has changed the log and
    [self.combined_df] at most. *)
Lemma preprocess_data_frame w o s' :
  preprocess_data (w, o) = Return tt s' ->
  (exists ms, fst s' = logged w ms) /\
  (snd s' = o \/ exists df, snd s' = with_combined o df).
Proof.
  intros Hrun. destruct (dataframes o) as [|d ds] eqn:Hd.
  - rewrite (preprocess_data_nothing w o Hd) in Hrun. injection Hrun as <-. eauto.
  - assert (Hne : dataframes o <> []) by congruence.
    assert (Ht : tables o <> []) by (unfold tables; rewrite Hd; discriminate).
    pose proof (concat_nonempty _ Ht) as Hc.
    set (merged := mkFrame _ _) in Hc.
    destruct (count_label "datetime" (columns (canonical merged))) as [|[|n]] eqn:E.
    + rewrite (preprocess_data_no_column w o merged Hne Hc E) in Hrun. discriminate.
    + destruct (preprocess_data_returns w o merged Hne Hc E) as (out & _ & Hout).
      rewrite Hout in Hrun. injection Hrun as <-. eauto.
    + rewrite (preprocess_data_two_columns w o merged n Hne Hc E) in Hrun. discriminate.
Qed.

(** With tables loaded, the method returns exactly when one of the two
    spellings of the timestamp column occurs among their columns. *)
Lemma preprocess_data_returns_iff w o :
  dataframes o <> [] ->
  (exists s', preprocess_data (w, o) = Return tt s') <-> one_spelling (tables o) = true.
Proof.
  intros Hne. split.
  - intros [s' Hrun].
    assert (Ht : tables o <> []).
    { unfold tables. destruct (dataframes o); [congruence | discriminate]. }
    pose proof (concat_nonempty _ Ht) as Hc.
    set (merged := mkFrame _ _) in Hc.
    pose proof (timestamp_columns _ _ Hc) as Hcount. unfold one_spelling.
    destruct (mentions "datetime" (tables o)), (mentions "DATETIME" (tables o));
      simpl in Hcount; try reflexivity.
    + rewrite (preprocess_data_two_columns w o merged 0 Hne Hc Hcount) in Hrun. discriminate.
    + rewrite (preprocess_data_no_column w o merged Hne Hc Hcount) in Hrun. discriminate.
  - intros Hx. destruct (preprocess_data_normalises (w, o) Hne Hx)
      as (merged & out & _ & _ & Hrun & _).
    eexists. exact Hrun.
Qed.

End Run.

(** ** Failures *)

Section Failures.
Context `{Pandas}.

(** C9.  For every non-empty list of loaded tables none of which has a
    column [datetime] or [DATETIME], [preprocess_data] raises [KeyError]
    and so does [run], which has no handler around it; nothing is written
    to the store. *)
Theorem preprocess_data_missing_column (s : State) :
  dataframes (snd s) <> [] ->
  forallb well_formed (tables (snd s)) = true ->
  mentions "datetime" (tables (snd s)) = false ->
  mentions "DATETIME" (tables (snd s)) = false ->
  (exists s', preprocess_data s = Raise (KeyError "datetime") s' /\
              store (fst s') = store (fst s)) /\
  (forall db_path table_name s0,
      load_files s0 = Return tt s ->
      exists s', run db_path table_name s0 = Raise (KeyError "datetime") s' /\
                 store (fst s') = store (fst s0)).
Proof.
  destruct s as [w o]. cbn [fst snd]. intros Hne _ Hlower Hupper.
  assert (Ht : tables o <> []).
  { unfold tables. destruct (dataframes o); [congruence | discriminate]. }
  pose proof (concat_nonempty _ Ht) as Hc.
  set (merged := mkFrame _ _) in Hc.
  pose proof (timestamp_columns _ _ Hc) as E. rewrite Hlower, Hupper in E. simpl in E.
  pose proof (preprocess_data_no_column w o merged Hne Hc E) as Hraise.
  split.
  - eexists. split; [exact Hraise | reflexivity].
  - intros db_path table_name [w0 o0] Hload. eexists. split.
    + eapply run_raises; [exact Hload | exact Hraise].
    + rewrite load_files_returns in Hload. injection Hload as <- _. reflexivity.
Qed.

(** C4, at the input of the scenario.  The merged table has both
    [DATETIME] and [datetime]; after the rename two columns are labelled
    [datetime], and [preprocess_data] raises [ValueError] instead of
    producing the two rows.  [run] on a directory with the two files raises
    the same. *)
Theorem scenario_mixed_spellings_raises (w : World) :
  preprocess_data
    (w, Scenario.holding [("a.csv", Scenario.a_csv); ("b.csv", Scenario.b_csv)]) =
  Raise (ValueError "cannot assemble with duplicate keys")
        (logged w [(INFO, Preprocessing)],
         with_combined
           (Scenario.holding [("a.csv", Scenario.a_csv); ("b.csv", Scenario.b_csv)])
           {| columns := ["datetime"; "val"; "datetime"];
              rows := [(O, [Str "2024-01-01T10:00:00Z"; Int 1; NA]);
                       (1%nat, [NA; Int 2; Str "2024-01-01T09:00:00"])] |}) /\
  exists s',
    run "out.db" "events"
        (Scenario.world [Scenario.csv "a.csv" Scenario.a_csv;
                         Scenario.csv "b.csv" Scenario.b_csv], init "data") =
    Raise (ValueError "cannot assemble with duplicate keys") s' /\
    store (fst s') = ∅.
Proof.
  assert (Hraise : forall w0,
    preprocess_data
      (w0, Scenario.holding [("a.csv", Scenario.a_csv); ("b.csv", Scenario.b_csv)]) =
    Raise (ValueError "cannot assemble with duplicate keys")
          (logged w0 [(INFO, Preprocessing)],
           with_combined
             (Scenario.holding [("a.csv", Scenario.a_csv); ("b.csv", Scenario.b_csv)])
             {| columns := ["datetime"; "val"; "datetime"];
                rows := [(O, [Str "2024-01-01T10:00:00Z"; Int 1; NA]);
                         (1%nat, [NA; Int 2; Str "2024-01-01T09:00:00"])] |})).
  { intros w0.
    pose (merged := {| columns := ["DATETIME"; "val"; "datetime"];
                       rows := [(O, [Str "2024-01-01T10:00:00Z"; Int 1; NA]);
                                (1%nat, [NA; Int 2; Str "2024-01-01T09:00:00"])] |}).
    change (mkFrame ["datetime"; "val"; "datetime"] (rows merged)) with (canonical merged).
    apply (preprocess_data_two_columns w0 _ merged O); [discriminate| |]; reflexivity. }
  split; [apply Hraise|].
  eexists. split.
  - eapply run_raises; [apply load_files_returns|].
    replace (extended _ _ _)
      with (Scenario.holding [("a.csv", Scenario.a_csv); ("b.csv", Scenario.b_csv)])
      by (vm_compute; reflexivity).
    apply Hraise.
  - reflexivity.
Qed.

End Failures.

(** ** Writing the result *)

Section Materialise.
Context `{Pandas}.

(** Loading and preprocessing touch neither the store nor the file
    system. *)
Lemma load_preprocess_frame s s1 s2 :
  load_files s = Return tt s1 ->
  preprocess_data s1 = Return tt s2 ->
  fs (fst s2) = fs (fst s) /\ db_fault (fst s2) = db_fault (fst s) /\
  write_fault (fst s2) = write_fault (fst s) /\
  store (fst s2) = store (fst s).
Proof.
  destruct s as [w o], s1 as [w1 o1]. rewrite load_files_returns.
  intros [= <- <-] Hpre. apply preprocess_data_frame in Hpre as [[ms ->] _].
  now repeat split.
Qed.

Lemma empty_false_len df : empty df = false -> (0 < len df)%nat.
Proof.
  unfold empty. intros Hempty. apply orb_false_elim in Hempty as [Hlen _].
  apply Nat.eqb_neq in Hlen. lia.
Qed.

(** A failed write does not change what [run] returns. *)
Lemma run_absorbs_refusal db_path table_name s s1 s2 df e :
  load_files s = Return tt s1 ->
  preprocess_data s1 = Return tt s2 ->
  combined_df (snd s2) = Some df ->
  empty df = false ->
  refusal (fst s) db_path table_name df = Some e ->
  exists w',
    run db_path table_name s = Return (len df) (w', snd s2) /\
    log w' = (log (fst s2) ++ [(INFO, WritingData db_path);
                               (ERROR, DatabaseCreationFailed e)])%list.
Proof.
  intros Hload Hpre Hdf Hempty Hr.
  destruct (load_preprocess_frame _ _ _ Hload Hpre) as (_ & Hf & Hw & _).
  destruct s2 as [w2 o2]. cbn [fst snd] in *.
  rewrite <- (refusal_frame _ _ _ _ _ Hf Hw) in Hr.
  destruct (create_database_fails db_path table_name w2 o2 df e Hdf Hempty Hr)
    as (w' & Hdb & _ & _ & _ & Hlog).
  exists w'. split; [|exact Hlog].
  rewrite (run_returns _ _ _ _ _ _ Hload Hpre Hdb). cbn [snd]. unfold row_count.
  now rewrite Hdf.
Qed.

(** C2, as the code has it.  Whenever the normalised table has rows and the
    write fails, because the database cannot be opened or because the write
    is refused on the way, [create_database] catches the exception and logs
    it as an error, and [run] returns the number of normalised rows, a
    positive number: the value it returns when the write succeeds.  The
    instance is as [preprocess_data] left it. *)
Theorem run_write_failure_absorbed db_path table_name s s1 s2 df e :
  load_files s = Return tt s1 ->
  preprocess_data s1 = Return tt s2 ->
  combined_df (snd s2) = Some df ->
  empty df = false ->
  refusal (fst s) db_path table_name df = Some e ->
  exists w',
    run db_path table_name s = Return (len df) (w', snd s2) /\
    (0 < len df)%nat /\
    log w' = (log (fst s2) ++ [(INFO, WritingData db_path);
                               (ERROR, DatabaseCreationFailed e)])%list.
Proof.
  intros Hload Hpre Hdf Hempty Hr.
  destruct (run_absorbs_refusal _ _ _ _ _ _ _ Hload Hpre Hdf Hempty Hr) as (w' & Hrun & Hlog).
  exists w'. split; [exact Hrun|]. split; [now apply empty_false_len | exact Hlog].
Qed.

(** The same count comes back when the write succeeds. *)
Lemma run_write_succeeds db_path table_name s s1 s2 df :
  load_files s = Return tt s1 ->
  preprocess_data s1 = Return tt s2 ->
  combined_df (snd s2) = Some df ->
  empty df = false ->
  refusal (fst s) db_path table_name df = None ->
  run db_path table_name s =
  Return (len df) (written (fst s2) db_path table_name df, snd s2).
Proof.
  intros Hload Hpre Hdf Hempty Hr.
  destruct (load_preprocess_frame _ _ _ Hload Hpre) as (_ & Hf & Hw & _).
  destruct s2 as [w2 o2]. cbn [fst snd] in *.
  rewrite <- (refusal_frame _ _ _ _ _ Hf Hw) in Hr.
  pose proof (create_database_writes db_path table_name w2 o2 df Hdf Hempty Hr) as Hdb.
  rewrite (run_returns _ _ _ _ _ _ Hload Hpre Hdb). cbn [snd]. unfold row_count.
  now rewrite Hdf.
Qed.

(** C10.  Whenever the instance holds no normalised table, or one without
    rows, after loading and preprocessing, [create_database] logs an error
    and returns with the store untouched (no database appears at
    [db_path], no table in it), and [run] returns 0. *)
Theorem run_nothing_to_write db_path table_name s s1 s2 :
  load_files s = Return tt s1 ->
  preprocess_data s1 = Return tt s2 ->
  combined_df (snd s2) = None \/
  (exists df, combined_df (snd s2) = Some df /\ rows df = []) ->
  create_database db_path table_name s2 =
    Return tt (logged (fst s2) [(ERROR, NoData)], snd s2) /\
  run db_path table_name s = Return O (logged (fst s2) [(ERROR, NoData)], snd s2) /\
  store (logged (fst s2) [(ERROR, NoData)]) = store (fst s).
Proof.
  intros Hload Hpre Hnone.
  destruct (load_preprocess_frame _ _ _ Hload Hpre) as (_ & _ & _ & Hstore).
  destruct s2 as [w2 o2]. cbn [fst snd] in *.
  assert (Hdb : create_database db_path table_name (w2, o2) =
                Return tt (logged w2 [(ERROR, NoData)], o2)).
  { apply create_database_nothing. destruct Hnone as [E|(df & E & Hrows)]; [now left|].
    right. exists df. split; [exact E|]. unfold empty, len. now rewrite Hrows. }
  split; [exact Hdb|]. split; [|exact Hstore].
  rewrite (run_returns _ _ _ _ _ _ Hload Hpre Hdb). cbn [snd]. unfold row_count.
  destruct Hnone as [->|(df & -> & Hrows)]; [reflexivity|].
  unfold len. now rewrite Hrows.
Qed.

(** A fresh instance on a directory with nothing to load is in the first
    case. *)
Lemma nothing_loaded_nothing_combined w dir s1 s2 :
  loaded_tables (listing (w, init dir)) = [] ->
  load_files (w, init dir) = Return tt s1 ->
  preprocess_data s1 = Return tt s2 ->
  combined_df (snd s2) = None.
Proof.
  intros Hnone. rewrite load_files_returns, Hnone. intros [= <-].
  rewrite preprocess_data_nothing by reflexivity. now intros [= <-].
Qed.

(** Tables in which no timestamp cell parses are in the second. *)
Lemma nothing_parsed_nothing_left (s : State) :
  dataframes (snd s) <> [] ->
  one_spelling (tables (snd s)) = true ->
  (forall merged, concat (tables (snd s)) = inr merged ->
     Forall (fun r => parses (datetime_column (canonical merged))
                             (datetime_of (canonical merged) r) = false)
            (rows merged)) ->
  exists out, preprocessed s out /\ rows out = [].
Proof.
  intros Hne Hx Hbad.
  destruct (preprocess_data_normalises s Hne Hx)
    as (merged & out & ks & Hc & Hrun & _ & _ & _ & Hperm & _ & _).
  exists out. split; [exact Hrun|].
  unfold surviving in Hperm. rewrite canonical_rows, (filter_none _ _ (Hbad _ Hc)) in Hperm.
  simpl in Hperm. now apply Permutation_sym, Permutation_nil in Hperm.
Qed.

End Materialise.

(** ** Running twice *)

Section Rerun.
Context `{Pandas}.

(** A run that returns has appended the directory's tables to
    [self.dataframes] once more; the directory, which the database file
    lies outside of, is as it was. *)
Lemma run_reloads db_path table_name s n s' :
  run db_path table_name s = Return n s' ->
  dataframes (snd s') = (dataframes (snd s) ++ loaded_tables (listing s))%list /\
  listing s' = listing s.
Proof.
  destruct s as [w o]. unfold run, mbind, M_bind. rewrite load_files_returns.
  destruct (preprocess_data _) as [[] [w2 o2]|e s2] eqn:Hpre; [|discriminate].
  destruct (create_database_returns db_path table_name w2 o2) as (w' & -> & Hfs & _).
  unfold mret, M_ret. intros [= _ <-]. cbn [fst snd].
  apply preprocess_data_frame in Hpre as [[ms Hw] Ho]. cbn [fst snd] in *. subst w2.
  unfold listing. cbn [fst snd]. rewrite Hfs. cbn [fs logged].
  destruct Ho as [->|[df ->]]; now split.
Qed.

(** A run over tables with one timestamp column, where the write does not
    fail: the table written holds the surviving rows in the order the sort
    gave them. *)
Lemma run_materialises db_path table_name (s : State) :
  dataframes (reloaded s) <> [] ->
  one_spelling (tables (reloaded s)) = true ->
  exists merged out,
    concat (tables (reloaded s)) = inr merged /\
    columns out = columns (canonical merged) /\
    Permutation (rows out) (surviving (canonical merged)) /\
    (empty out = false ->
     refusal (fst s) db_path table_name out = None ->
     run db_path table_name s =
     Return (len out)
            (written (logged (logged (fst s) ((INFO, Scanning (directory (snd s)))
                                                :: load_log (listing s)))
                             [(INFO, Preprocessing); (INFO, PreprocessingComplete (len out))])
                     db_path table_name out,
             with_combined (reloaded s) out)).
Proof.
  intros Hne Hx.
  pose proof (load_files_returns (fst s) (snd s)) as Hload.
  rewrite <- surjective_pairing in Hload. fold (reloaded s) in Hload.
  destruct (preprocess_data_normalises
              (logged (fst s) ((INFO, Scanning (directory (snd s))) :: load_log (listing s)),
               reloaded s) Hne Hx)
    as (merged & out & ks & Hc & Hrun & Hcols & _ & _ & Hperm & _ & _).
  exists merged, out. repeat split; auto.
  intros Hempty Hr. unfold preprocessed in Hrun. cbn [fst snd] in Hrun.
  exact (run_write_succeeds db_path table_name s _ _ out Hload Hrun eq_refl Hempty Hr).
Qed.

End Rerun.

(** C3, at a directory with one Parquet file of one row, for every
    implementation of the interface.  The first [run] writes a table of one
    row and returns 1.  The second [run] on the same instance and the same
    directory finds the file again, appends its table to the one
    [self.dataframes] still holds, and replaces the table by one of two
    rows: the row is duplicated. *)
Theorem run_twice_duplicates_rows `{Pandas} :
  let s0 := (Scenario.world [Scenario.parquet "events.parquet" Scenario.events_pq],
             init "data") in
  let event := [Aware 1704099600000000000 0; Int 2] in
  exists s1 s2,
    run "out.db" "events" s0 = Return 1%nat s1 /\
    store (fst s1) !! "out.db" =
      Some {[ "events" := {| sql_columns := ["datetime"; "val"]; sql_rows := [event] |} ]} /\
    run "out.db" "events" s1 = Return 2%nat s2 /\
    store (fst s2) !! "out.db" =
      Some {[ "events" := {| sql_columns := ["datetime"; "val"];
                             sql_rows := [event; event] |} ]}.
Proof.
  intros s0 event.
  destruct (run_materialises "out.db" "events" s0)
    as (merged & out & Hc & Hcols & Hperm & Hrun).
  { vm_compute. discriminate. } { reflexivity. }
  vm_compute in Hc. injection Hc as <-.
  vm_compute in Hcols. vm_compute in Hperm.
  apply Permutation_sym, Permutation_length_1_inv in Hperm.
  destruct out as [cols rws]. cbn [columns rows] in *. subst cols rws.
  specialize (Hrun eq_refl ltac:(vm_compute; reflexivity)).
  match type of Hrun with _ = Return _ ?s => set (s1 := s) in * end.
  exists s1.
  destruct (run_materialises "out.db" "events" s1)
    as (merged & out & Hc & Hcols & Hperm & Hrun2).
  { vm_compute. discriminate. } { reflexivity. }
  vm_compute in Hc. injection Hc as <-.
  vm_compute in Hcols. vm_compute in Hperm.
  destruct out as [cols rws]. cbn [columns rows] in *. subst cols.
  apply Permutation_sym, Permutation_length_2_inv in Hperm.
  destruct Hperm as [->| ->]; specialize (Hrun2 eq_refl ltac:(vm_compute; reflexivity));
    (eexists; split; [exact Hrun|]; split; [reflexivity|]; split; [exact Hrun2|]);
    vm_compute; reflexivity.
Qed.

(** In general: after two runs that return, [self.dataframes] holds the
    directory's tables twice, so the second merge has twice the rows. *)
Lemma run_twice_loads_twice `{Pandas} db_path table_name w dir n1 s1 n2 s2 :
  run db_path table_name (w, init dir) = Return n1 s1 ->
  run db_path table_name s1 = Return n2 s2 ->
  dataframes (snd s1) = loaded_tables (listing (w, init dir)) /\
  dataframes (snd s2) =
    (loaded_tables (listing (w, init dir)) ++ loaded_tables (listing (w, init dir)))%list.
Proof.
  intros H1 H2. apply run_reloads in H1 as [Hd1 Hl1]. apply run_reloads in H2 as [Hd2 _].
  rewrite Hd2, Hl1, Hd1. now split.
Qed.

(** ** The order of equal instants *)

(** Under numpy's index quicksort eighteen events of 09:00, merged in the
    order 0, 1, ..., 17, come out in the order 0, 15, 14, ..., 1, 16, 17:
    the partition exchanges entries with equal keys. *)
Lemma equal_instants_reordered :
  ~ (forall (P : Pandas) (s : State) (out : DataFrame),
        dataframes (snd s) <> [] -> preprocessed s out -> ties_in_merged_order out).
Proof.
  intros Hstable.
  specialize (Hstable pandas_quicksort
                (Scenario.world [], Scenario.holding [("burst.csv", Scenario.burst_csv)])
                (Scenario.burst_in_order
                   [0; 15; 14; 13; 12; 11; 10; 9; 8; 7; 6; 5; 4; 3; 2; 1; 16; 17]%nat)).
  assert (Hlt : (15 < 14)%nat).
  { apply (Hstable ltac:(discriminate) ltac:(vm_compute; reflexivity) 1%nat 2%nat
                   (15%nat, [Aware 1704099600000000000 0; Int 15])
                   (14%nat, [Aware 1704099600000000000 0; Int 14]));
      [lia | reflexivity | reflexivity | reflexivity]. }
  lia.
Qed.

(** The same input under the insertion sort: the merged order. *)
Example equal_instants_kept :
  preprocessed (H := pandas_keeping)
    (Scenario.world [], Scenario.holding [("burst.csv", Scenario.burst_csv)])
    (Scenario.burst_in_order (seq 0 18)).
Proof. vm_compute. reflexivity. Qed.

(** Two events of the same instant under the quicksort: a segment this
    short is sorted by insertion, and the merged order stays. *)
Example two_equal_instants_kept :
  preprocessed (H := pandas_quicksort)
    (Scenario.world [], Scenario.holding [("ties.csv", Scenario.ties_csv)])
    {| columns := ["datetime"; "val"];
       rows := [(O, [Aware 1704099600000000000 0; Int 1]);
                (1%nat, [Aware 1704099600000000000 0; Int 2])] |}.
Proof. vm_compute. reflexivity. Qed.

(** Where the quicksort model returns, it returns what the check accepts,
    here and on a table in reverse order. *)
Example quicksort_model_used :
  Introsort.aquicksort (repeat 5 18) =
    Some [0; 15; 14; 13; 12; 11; 10; 9; 8; 7; 6; 5; 4; 3; 2; 1; 16; 17]%nat /\
  Introsort.valid (repeat 5 18)
    [0; 15; 14; 13; 12; 11; 10; 9; 8; 7; 6; 5; 4; 3; 2; 1; 16; 17]%nat = true /\
  Introsort.aquicksort (List.map Z.of_nat (rev (seq 0 40))) = Some (rev (seq 0 40)).
Proof. vm_compute. repeat split. Qed.

(** The scenario of C4 with both files under the lower-case label: the
    method returns.  The text of [a.csv] ends in [Z] and settles the format
    of the column; the text of [b.csv] has no zone, is not read, and its row
    goes with the rows that have no timestamp. *)
Example scenario_one_spelling :
  preprocessed (H := pandas_keeping)
    (Scenario.world [],
     Scenario.holding [("a.csv", Scenario.a_lower_csv); ("b.csv", Scenario.b_csv)])
    {| columns := ["datetime"; "val"];
       rows := [(O, [Aware 1704103200000000000 0; Int 1])] |}.
Proof. vm_compute. reflexivity. Qed.

(** An integer column that meets a table without it is filled with nulls
    and becomes a column of floats: 2^53 + 1 comes out as 2^53. *)
Example merged_integer_becomes_float :
  preprocessed (H := pandas_keeping)
    (Scenario.world [],
     Scenario.holding [("wide.csv", Scenario.wide_csv); ("narrow.csv", Scenario.narrow_csv)])
    {| columns := ["datetime"; "val"];
       rows := [(O, [Aware 1704099600000000000 0; Float 4503599627370496 1]);
                (1%nat, [Aware 1704103200000000000 0; NA])] |}.
Proof. vm_compute. reflexivity. Qed.

(** The scenario with an unreadable date: the rows without a timestamp go,
    the other stays, moved to UTC (09:00+02:00 is 07:00 UTC). *)
Example scenario_unreadable_date :
  preprocessed (H := pandas_keeping)
    (Scenario.world [], Scenario.holding [("bad.csv", Scenario.bad_csv)])
    {| columns := ["datetime"; "val"];
       rows := [(1%nat, [Aware 1704092400000000000 0; Int 4])] |}.
Proof. vm_compute. reflexivity. Qed.

(** ** A failed write *)

(** One file with one good row, a database that cannot be opened: [run]
    returns 1. *)
Lemma write_failure_returns_row_count :
  ~ write_failure_visible (H := pandas_keeping) "out.db" "events"
      (Scenario.locked [Scenario.csv "b.csv" Scenario.b_csv], init "data").
Proof.
  intros Hvisible.
  destruct (Hvisible (OperationalError "unable to open database file") eq_refl)
    as [[s' Hrun]|(e' & s' & Hrun)]; vm_compute in Hrun; discriminate.
Qed.

(** ** The theorems at concrete inputs *)

Module Witness.

Lemma preprocess_data_merges_witness :
  exists merged out,
    concat (H := pandas_keeping) (tables (snd Scenario.two_files)) = inr merged /\
    preprocessed (H := pandas_keeping) Scenario.two_files out /\
    Permutation (rows out) (surviving (H := pandas_keeping) (canonical merged)) /\
    len merged = 4%nat /\
    index merged = [O; 1%nat; 2%nat; 3%nat].
Proof.
  destruct (preprocess_data_merges (H := pandas_keeping) Scenario.two_files)
    as (merged & Hc & (out & Hrun & _ & Hperm) & Hlen & _ & _ & Hix & _).
  - simpl. discriminate.
  - reflexivity.
  - exists merged, out. rewrite Hix, Hlen.
    split; [exact Hc|]. split; [exact Hrun|]. split; [exact Hperm|]. split; reflexivity.
Defined.

Lemma preprocess_data_timestamps_utc_witness :
  exists merged out,
    concat (H := pandas_keeping) (tables (snd Scenario.two_files)) = inr merged /\
    preprocessed (H := pandas_keeping) Scenario.two_files out /\
    Forall (fun r => utc_timestamp (datetime_of out r) /\ isna (datetime_of out r) = false)
           (rows out) /\
    forall r, In r (rows merged) ->
              parses (H := pandas_keeping) (datetime_column (canonical merged))
                     (datetime_of (canonical merged) r) = false ->
              ~ In (fst r) (index out).
Proof.
  apply (preprocess_data_timestamps_utc (H := pandas_keeping) Scenario.two_files).
  - simpl. discriminate.
  - reflexivity.
  - reflexivity.
Defined.

Lemma preprocess_data_chronological_witness :
  exists merged out ks,
    concat (H := pandas_keeping) (tables (snd Scenario.two_files)) = inr merged /\
    preprocessed (H := pandas_keeping) Scenario.two_files out /\
    Permutation (rows out) (surviving (H := pandas_keeping) (canonical merged)) /\
    List.map (datetime_of out) (rows out) = List.map (fun u => Aware u 0) ks /\
    StronglySorted Z.le ks.
Proof.
  apply (preprocess_data_chronological (H := pandas_keeping) Scenario.two_files).
  - simpl. discriminate.
  - reflexivity.
  - reflexivity.
Defined.

Lemma preprocess_data_drops_unparsed_witness :
  exists merged out,
    concat (H := pandas_keeping) (tables (snd Scenario.two_files)) = inr merged /\
    preprocessed (H := pandas_keeping) Scenario.two_files out /\
    len merged = 4%nat /\ len out = 2%nat.
Proof.
  destruct (preprocess_data_drops_unparsed (H := pandas_keeping) Scenario.two_files)
    as (merged & out & Hc & Hrun & Hcount & _).
  - simpl. discriminate.
  - reflexivity.
  - reflexivity.
  - exists merged, out. split; [exact Hc|]. split; [exact Hrun|].
    vm_compute in Hc. injection Hc as <-. cbv zeta in Hcount.
    match type of Hcount with
    | (_ + ?dropped = ?total)%nat =>
        let d := eval vm_compute in dropped in
        let t := eval vm_compute in total in
        change (len out + d = t)%nat in Hcount
    end.
    split; [reflexivity | lia].
Defined.

Lemma preprocess_data_converts_to_utc_witness :
  exists out r',
    preprocessed (H := pandas_keeping) Scenario.two_files out /\
    In r' (rows out) /\ fst r' = 2%nat /\
    datetime_of out r' = Aware 1704092400000000000 0.
Proof.
  destruct (preprocess_data_converts_to_utc (H := pandas_keeping) Scenario.two_files)
    as (merged & out & Hc & Hrun & Hrows).
  - simpl. discriminate.
  - reflexivity.
  - reflexivity.
  - vm_compute in Hc. injection Hc as <-.
    destruct (Hrows (2%nat, [Str "2024-01-01T09:00:00+02:00"; Int 4])) as [_ Hoff].
    { simpl. auto. }
    destruct (Hoff 1704099600000000000 7200000000000) as (r' & Hin & Hlabel & Hcell).
    { reflexivity. }
    { reflexivity. }
    exists out, r'. repeat split; assumption.
Defined.

Lemma preprocess_data_missing_column_witness :
  exists s',
    preprocess_data (H := pandas_keeping) Scenario.untimed = Raise (KeyError "datetime") s' /\
    store (fst s') = store (fst Scenario.untimed).
Proof.
  apply (preprocess_data_missing_column (H := pandas_keeping) Scenario.untimed).
  - simpl. discriminate.
  - reflexivity.
  - reflexivity.
  - reflexivity.
Defined.

Lemma run_write_failure_absorbed_witness :
  exists s',
    run (H := pandas_keeping) "out.db" "events" Scenario.locked_start = Return 1%nat s' /\
    exists ms,
      log (fst s') =
      (ms ++ [(INFO, WritingData "out.db");
              (ERROR, DatabaseCreationFailed
                        (OperationalError "unable to open database file"))])%list.
Proof.
  edestruct (run_write_failure_absorbed (H := pandas_keeping) "out.db" "events"
               Scenario.locked_start) as (w' & Hrun & _ & Hlog).
  - vm_compute. reflexivity.
  - vm_compute. reflexivity.
  - reflexivity.
  - reflexivity.
  - reflexivity.
  - eexists. split; [exact Hrun|]. eexists. exact Hlog.
Defined.

Lemma run_nothing_to_write_witness :
  exists s2,
    run (H := pandas_keeping) "out.db" "events" Scenario.hopeless_start =
    Return O (logged (fst s2) [(ERROR, NoData)], snd s2) /\
    store (logged (fst s2) [(ERROR, NoData)]) = ∅.
Proof.
  eexists.
  edestruct (run_nothing_to_write (H := pandas_keeping) "out.db" "events" Scenario.hopeless_start)
    as (_ & Hrun & Hstore).
  - vm_compute. reflexivity.
  - vm_compute. reflexivity.
  - right. eexists. split; reflexivity.
  - split; [exact Hrun | exact Hstore].
Defined.

End Witness.

(** * Further properties of the methods *)

(** ** File names *)

(** [load_files] has a reader for the entry. *)
Definition recognised (file : File) : bool := is_some (attempt file).

Section Names.

Lemma rfind_absent ch s : contains ch s = false -> rfind ch s = None.
Proof.
  induction s as [|a s IH]; simpl; [reflexivity|]. intros Hc.
  apply orb_false_elim in Hc as [Ha Hs]. now rewrite (IH Hs), Ha.
Qed.

Lemma rfind_append ch s1 s2 i :
  rfind ch s2 = Some i -> rfind ch (s1 ++ s2) = Some (String.length s1 + i)%nat.
Proof.
  intros H2. induction s1 as [|a s1 IH]; simpl; [exact H2|]. now rewrite IH.
Qed.

Lemma length_append s1 s2 :
  String.length (s1 ++ s2) = (String.length s1 + String.length s2)%nat.
Proof. induction s1 as [|a s1 IH]; simpl; [reflexivity | now rewrite IH]. Qed.

Lemma substring_all s : substring 0 (String.length s) s = s.
Proof. induction s as [|a s IH]; simpl; [reflexivity | now rewrite IH]. Qed.

Lemma substring_append s1 s2 :
  substring (String.length s1) (String.length s2) (s1 ++ s2) = s2.
Proof. induction s1 as [|a s1 IH]; simpl; [apply substring_all | exact IH]. Qed.

(** [Path.suffix] of [stem.ext]: the last dot and what follows it. *)
Lemma suffix_stem_ext stem ext :
  stem <> "" -> ext <> "" -> contains "." ext = false ->
  suffix (stem ++ String "." ext) = String "." ext.
Proof.
  intros Hstem Hext Hdot. unfold suffix.
  rewrite (rfind_append "." stem (String "." ext) O).
  2:{ simpl. now rewrite (rfind_absent _ _ Hdot). }
  rewrite Nat.add_0_r, length_append. simpl String.length.
  assert (0 < String.length stem)%nat by (destruct stem; [congruence | simpl; lia]).
  assert (0 < String.length ext)%nat by (destruct ext; [congruence | simpl; lia]).
  replace ((0 <? String.length stem)%nat) with true by (symmetry; apply Nat.ltb_lt; lia).
  replace ((String.length stem <? String.length stem + S (String.length ext) - 1)%nat)
    with true by (symmetry; apply Nat.ltb_lt; lia).
  simpl andb. cbv iota.
  replace (String.length stem + S (String.length ext) - String.length stem)%nat
    with (String.length (String "." ext)) by (simpl; lia).
  apply substring_append.
Qed.

(** No dot, a dot only in front, or a dot only at the end: no suffix. *)
Lemma suffix_none file_name :
  contains "." file_name = false \/
  (exists ext, file_name = String "." ext /\ contains "." ext = false) \/
  (exists stem, file_name = stem ++ ".") ->
  suffix file_name = "".
Proof.
  unfold suffix. intros [Hnone|[(ext & -> & Hdot)|(stem & ->)]].
  - now rewrite (rfind_absent _ _ Hnone).
  - simpl. now rewrite (rfind_absent _ _ Hdot).
  - rewrite (rfind_append "." stem "." O) by reflexivity.
    rewrite Nat.add_0_r, length_append. simpl String.length.
    replace ((String.length stem <? String.length stem + 1 - 1)%nat) with false
      by (symmetry; apply Nat.ltb_ge; lia).
    now rewrite andb_false_r.
Qed.

End Names.

(** ** What [load_files] reads *)

Section Loading.

Lemma load_file_attempt file w o :
  load_file file (w, o) =
  match attempt file with
  | Some (inr df) =>
      Return tt (logged w [(INFO, Loaded (name file))], extended o [(name file, df)] [])
  | Some (inl e) =>
      Return tt (logged w [(ERROR, LoadFailed (name file) e)], extended o [] [(name file, e)])
  | None => Return tt (w, o)
  end.
Proof.
  rewrite load_file_step. unfold load_log, loaded_tables, load_errors. simpl.
  destruct (attempt file) as [[e|df]|]; simpl; try reflexivity.
  now rewrite logged_nil, extended_nil.
Qed.

(** X2.  An entry named [stem.ext] (non-empty stem, [ext] without a dot) is
    handled by the letters of [ext] whatever their case: [csv] goes to
    [read_csv], [parquet] and [pq] go to [read_parquet], anything else is
    passed over without a trace.  A table read is appended with the file's
    name and logged; an exception of the reader is appended to
    [self.errors] with the file's name and logged as an error, and the
    method goes on. *)
Theorem load_file_dispatch file stem ext w o :
  name file = stem ++ String "." ext ->
  stem <> "" -> ext <> "" -> contains "." ext = false ->
  load_file file (w, o) =
  match (if String.eqb (lower ext) "csv" then Some (read_csv file)
         else if String.eqb (lower ext) "parquet" || String.eqb (lower ext) "pq"
              then Some (read_parquet file)
              else None) with
  | Some (inr df) =>
      Return tt (logged w [(INFO, Loaded (name file))], extended o [(name file, df)] [])
  | Some (inl e) =>
      Return tt (logged w [(ERROR, LoadFailed (name file) e)], extended o [] [(name file, e)])
  | None => Return tt (w, o)
  end.
Proof.
  intros Hname Hstem Hext Hdot. rewrite load_file_attempt. unfold attempt.
  rewrite Hname, (suffix_stem_ext stem ext Hstem Hext Hdot).
  change (lower (String "." ext)) with (String "." (lower ext)).
  change (String.eqb (String "." (lower ext)) ".csv") with (String.eqb (lower ext) "csv").
  destruct (String.eqb (lower ext) "csv"); [reflexivity|].
  cbn [existsb].
  change (String.eqb (String "." (lower ext)) ".parquet")
    with (String.eqb (lower ext) "parquet").
  change (String.eqb (String "." (lower ext)) ".pq") with (String.eqb (lower ext) "pq").
  rewrite orb_false_r. reflexivity.
Qed.

(** X3.  An entry whose name has no dot, or its only dot in front (a hidden
    file such as [.csv]), or a dot at its end, has no suffix and is passed
    over: nothing is read, nothing recorded, nothing logged. *)
Theorem load_file_skips_unsuffixed file w o :
  contains "." (name file) = false \/
  (exists ext, name file = String "." ext /\ contains "." ext = false) \/
  (exists stem, name file = stem ++ ".") ->
  load_file file (w, o) = Return tt (w, o).
Proof.
  intros Hname. rewrite load_file_attempt. unfold attempt.
  now rewrite (suffix_none _ Hname).
Qed.

Lemma attempts_counted files :
  (List.length (loaded_tables files) + List.length (load_errors files))%nat =
  List.length (List.filter recognised files).
Proof.
  induction files as [|file files IH]; [reflexivity|].
  unfold loaded_tables, load_errors, recognised in *. simpl.
  rewrite !length_app.
  destruct (attempt file) as [[e|df]|]; simpl; lia.
Qed.

Lemma loaded_tables_In files file df :
  In file files -> attempt file = Some (inr df) -> In (name file, df) (loaded_tables files).
Proof.
  intros Hin Hdf. unfold loaded_tables. apply in_flat_map. exists file.
  split; [exact Hin|]. rewrite Hdf. now left.
Qed.

Lemma load_errors_In files file e :
  In file files -> attempt file = Some (inl e) ->
  In (name file, e) (load_errors files) /\
  In (ERROR, LoadFailed (name file) e) (load_log files).
Proof.
  intros Hin He. unfold load_errors, load_log. split; apply in_flat_map; exists file;
    (split; [exact Hin|]); rewrite He; now left.
Qed.

(** X1.  [load_files] never raises.  It leaves the file system, the store,
    [self.directory] and [self.combined_df] as they were.  Every entry with
    a recognised suffix is attempted once: those that read are appended to
    [self.dataframes], those whose reader raises are appended to
    [self.errors] and logged as errors, and a failure does not keep any
    other entry from being read. *)
Theorem load_files_absorbs_failures (w : World) (o : DataETL) :
  exists s',
    load_files (w, o) = Return tt s' /\
    fs (fst s') = fs w /\ store (fst s') = store w /\ db_fault (fst s') = db_fault w /\
    directory (snd s') = directory o /\ combined_df (snd s') = combined_df o /\
    (exists ts es,
        dataframes (snd s') = (dataframes o ++ ts)%list /\
        errors (snd s') = (errors o ++ es)%list /\
        (List.length ts + List.length es)%nat =
        List.length (List.filter recognised (listing (w, o))) /\
        (forall file df, In file (listing (w, o)) -> attempt file = Some (inr df) ->
                         In (name file, df) ts) /\
        (forall file e, In file (listing (w, o)) -> attempt file = Some (inl e) ->
                        In (name file, e) es /\
                        In (ERROR, LoadFailed (name file) e) (log (fst s')))).
Proof.
  eexists. split; [apply load_files_returns|]. cbn [fst snd logged extended fs store
    db_fault directory combined_df dataframes errors log].
  repeat (split; [reflexivity|]).
  exists (loaded_tables (listing (w, o))), (load_errors (listing (w, o))).
  repeat (split; [reflexivity|]).
  split; [apply attempts_counted|]. split.
  - apply loaded_tables_In.
  - intros file e Hin He. destruct (load_errors_In _ _ _ Hin He) as [Herr Hlog].
    split; [exact Herr|]. apply in_or_app. right. now right.
Qed.

End Loading.

(** ** What [create_database] writes *)

(** The table of that name in the database at that path, if both exist. *)
Definition table_at (st : gmap string (gmap string SqlTable)) (db_path table_name : string)
  : option SqlTable :=
  st !! db_path ≫= (fun db => db !! table_name).

Section Writing.
Context `{Pandas}.

Lemma table_at_written w db_path table_name df :
  table_at (store (written w db_path table_name df)) db_path table_name = Some (table_of df).
Proof.
  unfold table_at, written. cbn [store]. rewrite lookup_insert_eq. simpl.
  apply lookup_insert_eq.
Qed.

(** X4.  When the instance holds a table with rows and neither [connect]
    nor the write of this table fails, [create_database] leaves under
    [table_name] in the database at [db_path] exactly the columns and the
    rows of [self.combined_df], in their order and without the index,
    whatever was there before; the log reports the number of rows. *)
Theorem create_database_replaces_table db_path table_name w o df :
  combined_df o = Some df -> empty df = false ->
  refusal w db_path table_name df = None ->
  exists w',
    create_database db_path table_name (w, o) = Return tt (w', o) /\
    table_at (store w') db_path table_name =
      Some {| sql_columns := columns df; sql_rows := List.map snd (rows df) |} /\
    log w' = (log w ++ [(INFO, WritingData db_path);
                        (INFO, CreatedTable table_name (List.length (rows df)))])%list.
Proof.
  intros Hdf Hempty Hr. eexists.
  split; [apply (create_database_writes _ _ _ _ _ Hdf Hempty Hr)|].
  split; [apply table_at_written | reflexivity].
Qed.

(** X5.  Writing one table and then another under the same path and name,
    where neither write fails, leaves the store as writing the second alone
    does: nothing of the first remains. *)
Theorem create_database_second_write_wins db_path table_name w o1 o2 df1 df2 :
  combined_df o1 = Some df1 -> empty df1 = false ->
  combined_df o2 = Some df2 -> empty df2 = false ->
  refusal w db_path table_name df1 = None ->
  refusal w db_path table_name df2 = None ->
  exists w1 w2 w2',
    create_database db_path table_name (w, o1) = Return tt (w1, o1) /\
    create_database db_path table_name (w1, o2) = Return tt (w2, o2) /\
    create_database db_path table_name (w, o2) = Return tt (w2', o2) /\
    store w2 = store w2'.
Proof.
  intros Hdf1 He1 Hdf2 He2 Hr1 Hr2.
  exists (written w db_path table_name df1),
         (written (written w db_path table_name df1) db_path table_name df2),
         (written w db_path table_name df2).
  split; [apply (create_database_writes _ _ _ _ _ Hdf1 He1 Hr1)|].
  split; [apply (create_database_writes _ _ _ _ _ Hdf2 He2); exact Hr2|].
  split; [apply (create_database_writes _ _ _ _ _ Hdf2 He2 Hr2)|].
  unfold written. cbn [store]. rewrite lookup_insert_eq. simpl.
  now rewrite !insert_insert_eq.
Qed.

(** X12.  [create_database] never raises and never changes the instance.
    It adds to the log one of three things: the error that there is nothing
    to write, and then it has not touched the store; the notice that it
    writes followed by the record of success, and then the table holds the
    frame; or the notice followed by the error record of the exception it
    caught. *)
Theorem create_database_never_raises db_path table_name (w : World) (o : DataETL) :
  exists w' ms,
    create_database db_path table_name (w, o) = Return tt (w', o) /\
    log w' = (log w ++ ms)%list /\
    (ms = [(ERROR, NoData)] /\ store w' = store w \/
     (exists df, combined_df o = Some df /\
                 ms = [(INFO, WritingData db_path);
                       (INFO, CreatedTable table_name (len df))] /\
                 table_at (store w') db_path table_name = Some (table_of df)) \/
     (exists e, ms = [(INFO, WritingData db_path); (ERROR, DatabaseCreationFailed e)])).
Proof.
  destruct (combined_df o) as [df|] eqn:Hdf.
  - destruct (empty df) eqn:Hempty.
    + eexists. eexists. split; [apply create_database_nothing; eauto|].
      split; [reflexivity|]. left. now split.
    + destruct (refusal w db_path table_name df) as [e|] eqn:Hr.
      * destruct (create_database_fails _ _ _ _ _ _ Hdf Hempty Hr)
          as (w' & Hrun & _ & _ & _ & Hlog).
        exists w'. eexists. split; [exact Hrun|]. split; [exact Hlog|].
        right. right. now exists e.
      * eexists. eexists. split; [eapply create_database_writes; eauto|].
        split; [reflexivity|]. right. left. exists df.
        split; [reflexivity|]. split; [reflexivity | apply table_at_written].
  - eexists. eexists. split; [apply create_database_nothing; eauto|].
    split; [reflexivity|]. left. now split.
Qed.

(** X6.  A run over tables with one timestamp column returns the number of
    rows it left in [self.combined_df], whether the write succeeds or not.
    When that number is positive and neither [connect] nor the write of the
    table fails, the table in the database has exactly these rows, in that
    order, with their [datetime] cells UTC instants in non-decreasing order;
    when it is zero, the store is as it was. *)
Theorem run_writes_what_it_counts db_path table_name (s : State) :
  dataframes (reloaded s) <> [] ->
  one_spelling (tables (reloaded s)) = true ->
  exists out s' ks,
    run db_path table_name s = Return (len out) s' /\
    combined_df (snd s') = Some out /\
    List.map (datetime_of out) (rows out) = List.map (fun u => Aware u 0) ks /\
    Sorted Z.le ks /\
    ((0 < len out)%nat ->
     refusal (fst s) db_path table_name out = None ->
     table_at (store (fst s')) db_path table_name =
       Some {| sql_columns := columns out; sql_rows := values out |}) /\
    (len out = O -> store (fst s') = store (fst s)).
Proof.
  intros Hne Hx.
  pose proof (load_files_returns (fst s) (snd s)) as Hload.
  rewrite <- surjective_pairing in Hload. fold (reloaded s) in Hload.
  destruct (preprocess_data_normalises
              (logged (fst s) ((INFO, Scanning (directory (snd s))) :: load_log (listing s)),
               reloaded s) Hne Hx)
    as (merged & out & ks & Hc & Hrun & Hcols & E & _ & _ & Hks & Hsorted).
  unfold preprocessed in Hrun. cbn [fst snd] in Hrun.
  destruct (len out) as [|n] eqn:Hlen.
  - match type of Hrun with _ = Return tt (?w, _) => set (w2 := w) in * end.
    assert (Hdb : create_database db_path table_name (w2, with_combined (reloaded s) out) =
                  Return tt (logged w2 [(ERROR, NoData)], with_combined (reloaded s) out)).
    { apply create_database_nothing. right. exists out. split; [reflexivity|].
      unfold empty. now rewrite Hlen. }
    exists out, (logged w2 [(ERROR, NoData)], with_combined (reloaded s) out), ks.
    split.
    { rewrite (run_returns _ _ _ _ _ _ Hload Hrun Hdb).
      cbn [snd]. unfold row_count. cbn [combined_df with_combined]. now rewrite Hlen. }
    repeat split; auto. lia.
  - assert (Hempty : empty out = false).
    { unfold empty. rewrite Hlen. simpl. apply Nat.eqb_neq. rewrite Hcols.
      intros Hnil. apply length_zero_iff_nil in Hnil. rewrite Hnil in E. discriminate. }
    rewrite <- Hlen in *.
    destruct (refusal (fst s) db_path table_name out) as [e|] eqn:Hr.
    + destruct (run_absorbs_refusal db_path table_name s _ _ out e Hload Hrun eq_refl
                  Hempty Hr) as (w' & Hrun' & _).
      eexists out, _, ks. split; [exact Hrun'|]. cbn [fst snd].
      repeat split; auto.
      * intros _ Hnone. congruence.
      * intros Hzero. rewrite Hzero in Hlen. discriminate.
    + pose proof (run_write_succeeds db_path table_name s _ _ out Hload Hrun eq_refl
                    Hempty Hr) as Hrun'.
      eexists out, _, ks. split; [exact Hrun'|]. cbn [fst snd].
      repeat split; auto.
      * intros _ _. apply table_at_written.
      * intros Hzero. rewrite Hzero in Hlen. discriminate.
Qed.

End Writing.

(** Two writes that fail once the database is open.  In both [run] returns
    1, the row count of the table it could not write. *)

(** Labels [val] and [VAL]: the table is dropped and cannot be created
    again; the database file is there, without the table. *)
Example duplicate_column_leaves_no_table :
  exists s',
    run (H := pandas_keeping) "out.db" "events"
        (Scenario.world [Scenario.csv "twin.csv" Scenario.twin_csv], init "data") =
    Return 1%nat s' /\
    store (fst s') !! "out.db" = Some ∅ /\
    List.last (log (fst s')) (INFO, NoData) =
      (ERROR, DatabaseCreationFailed (OperationalError "duplicate column name: VAL")).
Proof. eexists. vm_compute. repeat split. Qed.

(** An integer of 2^63: the table is created, the insertion fails, and the
    table stays without rows. *)
Example overflow_leaves_empty_table :
  exists s',
    run (H := pandas_keeping) "out.db" "events"
        (Scenario.world [Scenario.csv "huge.csv" Scenario.huge_csv], init "data") =
    Return 1%nat s' /\
    table_at (store (fst s')) "out.db" "events" =
      Some {| sql_columns := ["datetime"; "val"]; sql_rows := [] |} /\
    List.last (log (fst s')) (INFO, NoData) =
      (ERROR, DatabaseCreationFailed
                (OverflowError "Python int too large to convert to SQLite INTEGER")).
Proof. eexists. vm_compute. repeat split. Qed.

(** ** What [preprocess_data] changes and what it leaves *)

Section Preserving.
Context `{Pandas}.

Lemma canonical_columns df :
  columns (canonical df) =
  List.map (fun c => if String.eqb c "DATETIME" then "datetime" else c) (columns df).
Proof.
  unfold canonical. destruct (has_column "DATETIME" (columns df)) eqn:E; [reflexivity|].
  apply has_column_false in E. rewrite <- (List.map_id (columns df)) at 1.
  apply map_ext_in. intros c Hc. destruct (String.eqb c "DATETIME") eqn:Ec; [|reflexivity].
  apply String.eqb_eq in Ec. subst. contradiction.
Qed.

Lemma canonical_no_upper df : ~ In "DATETIME" (columns (canonical df)).
Proof.
  rewrite canonical_columns, in_map_iff. intros (c & Hc & _).
  destruct (String.eqb c "DATETIME") eqn:Ec; [discriminate|].
  apply String.eqb_neq in Ec. congruence.
Qed.

(** X7.  For every non-empty list of loaded tables whose merged table has
    one timestamp column, the table [preprocess_data] leaves has the merged
    table's columns in their order, with [DATETIME] renamed to [datetime]
    and no other label changed; exactly one column is labelled [datetime]
    and none [DATETIME].  Each of its rows is a merged row under the same
    index label, as wide as the header, with every cell outside the
    [datetime] column unchanged. *)
Theorem preprocess_data_keeps_other_columns (s : State) :
  dataframes (snd s) <> [] ->
  one_spelling (tables (snd s)) = true ->
  exists merged out,
    concat (tables (snd s)) = inr merged /\
    preprocessed s out /\
    columns out =
      List.map (fun c => if String.eqb c "DATETIME" then "datetime" else c)
               (columns merged) /\
    count_label "datetime" (columns out) = 1%nat /\
    ~ In "DATETIME" (columns out) /\
    forall r', In r' (rows out) ->
      exists r, In r (rows merged) /\ fst r = fst r' /\
                List.length (snd r') = List.length (columns out) /\
                forall c, c <> "datetime" ->
                          cell (columns out) (snd r') c = cell (columns out) (snd r) c.
Proof.
  intros Hne Hx.
  destruct (preprocess_data_normalises s Hne Hx)
    as (merged & out & ks & Hc & Hrun & Hcols & E & Hw & Hperm & _ & _).
  exists merged, out. split; [exact Hc|]. split; [exact Hrun|].
  rewrite Hcols. split; [apply canonical_columns|]. split; [exact E|].
  split; [apply canonical_no_upper|].
  intros r' Hr'. apply (Permutation_in _ Hperm) in Hr'. unfold surviving in Hr'.
  apply in_map_iff in Hr' as (r & <- & Hr). apply filter_In in Hr as [Hr _].
  unfold full_width in Hw. rewrite List.Forall_forall in Hw. specialize (Hw r Hr).
  rewrite canonical_rows in Hr.
  exists r. split; [exact Hr|]. split; [reflexivity|]. unfold convert_row. cbn [fst snd].
  split; [now rewrite length_set_cell|].
  intros c Hne'. now apply cell_set_cell_other.
Qed.

(** X8.  With tables loaded, the outcome of [preprocess_data] is decided by
    the two spellings of the timestamp label among their columns: exactly
    one of them, and the method returns; neither, and it raises
    [KeyError]; both, and it raises [ValueError].  When it raises,
    [self.combined_df] is left holding the merged table with [DATETIME]
    renamed and nothing else done to it. *)
Theorem preprocess_data_outcomes (s : State) :
  dataframes (snd s) <> [] ->
  exists merged,
    concat (tables (snd s)) = inr merged /\
    match mentions "datetime" (tables (snd s)), mentions "DATETIME" (tables (snd s)) with
    | false, false =>
        preprocess_data s =
        Raise (KeyError "datetime")
              (logged (fst s) [(INFO, Preprocessing)],
               with_combined (snd s) (canonical merged))
    | true, true =>
        preprocess_data s =
        Raise (ValueError "cannot assemble with duplicate keys")
              (logged (fst s) [(INFO, Preprocessing)],
               with_combined (snd s) (canonical merged))
    | _, _ => exists out, preprocessed s out
    end.
Proof.
  destruct s as [w o]. cbn [fst snd]. intros Hne.
  assert (Ht : tables o <> []).
  { unfold tables. destruct (dataframes o); [congruence | discriminate]. }
  pose proof (concat_nonempty _ Ht) as Hc.
  set (merged := mkFrame _ _) in Hc. exists merged. split; [exact Hc|].
  pose proof (timestamp_columns _ _ Hc) as Hcount.
  destruct (mentions "datetime" (tables o)) eqn:Hl, (mentions "DATETIME" (tables o)) eqn:Hu;
    simpl in Hcount.
  - apply (preprocess_data_two_columns w o merged O Hne Hc Hcount).
  - destruct (preprocess_data_returns w o merged Hne Hc Hcount) as (out & _ & Hrun).
    exists out. exact Hrun.
  - destruct (preprocess_data_returns w o merged Hne Hc Hcount) as (out & _ & Hrun).
    exists out. exact Hrun.
  - apply (preprocess_data_no_column w o merged Hne Hc Hcount).
Qed.

(** The state an outcome ends in. *)
Definition final_state {A} (r : outcome A) : State :=
  match r with
  | Return _ s' => s'
  | Raise _ s' => s'
  end.

(** X9.  However [preprocess_data] ends, by returning or by raising, it has
    not touched [self.dataframes], [self.errors] or [self.directory], nor
    the file system or the store; the log has only grown. *)
Theorem preprocess_data_touches_only_result (s : State) :
  let s' := final_state (preprocess_data s) in
  dataframes (snd s') = dataframes (snd s) /\
  errors (snd s') = errors (snd s) /\
  directory (snd s') = directory (snd s) /\
  fs (fst s') = fs (fst s) /\
  store (fst s') = store (fst s) /\
  db_fault (fst s') = db_fault (fst s) /\
  exists ms, log (fst s') = (log (fst s) ++ ms)%list.
Proof.
  destruct s as [w o]. cbn [fst snd].
  destruct (dataframes o) as [|d ds] eqn:Hd.
  - rewrite (preprocess_data_nothing w o Hd). cbn. repeat split; eauto.
  - assert (Hne : dataframes o <> []) by congruence.
    assert (Ht : tables o <> []) by (unfold tables; rewrite Hd; discriminate).
    pose proof (concat_nonempty _ Ht) as Hc.
    set (merged := mkFrame _ _) in Hc.
    destruct (count_label "datetime" (columns (canonical merged))) as [|[|n]] eqn:E.
    + rewrite (preprocess_data_no_column w o merged Hne Hc E). cbn.
      repeat split; eauto.
    + destruct (preprocess_data_returns w o merged Hne Hc E) as (out & _ & ->). cbn.
      repeat split; eauto.
    + rewrite (preprocess_data_two_columns w o merged n Hne Hc E). cbn.
      repeat split; eauto.
Qed.

End Preserving.

(** ** How [run] ends *)

Section Ending.
Context `{Pandas}.

(** X10.  On an instance that holds no table and no result, over a
    directory from which nothing can be loaded (missing, empty, only
    entries that are passed over or fail to read), [run] returns 0; the
    store is as it was, and the log ends with the warning of
    [preprocess_data] and the error of [create_database]. *)
Theorem run_nothing_loaded db_path table_name (w : World) (o : DataETL) :
  dataframes o = [] -> combined_df o = None ->
  loaded_tables (listing (w, o)) = [] ->
  run db_path table_name (w, o) =
  Return O
         (logged w ((INFO, Scanning (directory o))
                      :: load_log (listing (w, o))
                      ++ [(WARNING, NoDataframes); (ERROR, NoData)]),
          extended o [] (load_errors (listing (w, o)))).
Proof.
  intros Hd Hc Hnone.
  pose proof (load_files_returns w o) as Hload. rewrite Hnone in Hload.
  set (w1 := logged w _) in Hload. set (o1 := extended o [] _) in Hload.
  assert (Hd1 : dataframes o1 = []) by (unfold o1, extended; simpl; now rewrite Hd).
  pose proof (preprocess_data_nothing w1 o1 Hd1) as Hpre.
  assert (Hdb : create_database db_path table_name
                  (logged w1 [(WARNING, NoDataframes)], o1) =
                Return tt (logged (logged w1 [(WARNING, NoDataframes)]) [(ERROR, NoData)], o1)).
  { apply create_database_nothing. left. exact Hc. }
  rewrite (run_returns _ _ _ _ _ _ Hload Hpre Hdb). cbn [snd]. unfold row_count.
  replace (combined_df o1) with (@None DataFrame) by (symmetry; exact Hc).
  unfold w1. rewrite !logged_logged. simpl. rewrite <- ?app_assoc. reflexivity.
Qed.

(** X13.  Over tables as the readers deliver them (distinct column labels,
    rows as wide as the header), [run] raises only what [preprocess_data]
    raises: [KeyError] when the tables it holds after loading have neither
    spelling of the timestamp label, [ValueError] when they have both.  When
    it raises, the store is as it was, and [self.dataframes] holds the
    tables loaded by this call after those it held before. *)
Theorem run_raises_only_on_schema db_path table_name (s : State) e s' :
  forallb well_formed (tables (reloaded s)) = true ->
  run db_path table_name s = Raise e s' ->
  (e = KeyError "datetime" /\
   mentions "datetime" (tables (snd s')) = false /\
   mentions "DATETIME" (tables (snd s')) = false \/
   e = ValueError "cannot assemble with duplicate keys" /\
   mentions "datetime" (tables (snd s')) = true /\
   mentions "DATETIME" (tables (snd s')) = true) /\
  store (fst s') = store (fst s) /\
  dataframes (snd s') = (dataframes (snd s) ++ loaded_tables (listing s))%list /\
  dataframes (snd s') <> [].
Proof.
  intros _.
  destruct s as [w o]. unfold run, mbind, M_bind. rewrite load_files_returns.
  set (w1 := logged w _). set (o1 := extended o _ _). cbn [fst snd].
  destruct (dataframes o1) as [|d ds] eqn:Hd.
  - rewrite (preprocess_data_nothing w1 o1 Hd).
    destruct (create_database_returns db_path table_name
                (logged w1 [(WARNING, NoDataframes)]) o1) as (w' & -> & _).
    discriminate.
  - assert (Hne : dataframes o1 <> []) by congruence.
    assert (Ht : tables o1 <> []) by (unfold tables; rewrite Hd; discriminate).
    pose proof (concat_nonempty _ Ht) as Hc.
    set (merged := mkFrame _ _) in Hc.
    pose proof (timestamp_columns _ _ Hc) as Hcount.
    destruct (mentions "datetime" (tables o1)) eqn:Hl,
             (mentions "DATETIME" (tables o1)) eqn:Hu; simpl in Hcount.
    + rewrite (preprocess_data_two_columns w1 o1 merged O Hne Hc Hcount).
      intros [= <- <-]. cbn [fst snd].
      change (tables (with_combined o1 (canonical merged))) with (tables o1).
      rewrite Hl, Hu. split; [right; auto|]. split; [reflexivity|].
      split; [reflexivity|]. change (dataframes o1 <> []). rewrite Hd. discriminate.
    + destruct (preprocess_data_returns w1 o1 merged Hne Hc Hcount) as (out & _ & ->).
      destruct (create_database_returns db_path table_name
                  (logged w1 [(INFO, Preprocessing); (INFO, PreprocessingComplete (len out))])
                  (with_combined o1 out)) as (w' & -> & _).
      discriminate.
    + destruct (preprocess_data_returns w1 o1 merged Hne Hc Hcount) as (out & _ & ->).
      destruct (create_database_returns db_path table_name
                  (logged w1 [(INFO, Preprocessing); (INFO, PreprocessingComplete (len out))])
                  (with_combined o1 out)) as (w' & -> & _).
      discriminate.
    + rewrite (preprocess_data_no_column w1 o1 merged Hne Hc Hcount).
      intros [= <- <-]. cbn [fst snd].
      change (tables (with_combined o1 (canonical merged))) with (tables o1).
      rewrite Hl, Hu. split; [left; auto|]. split; [reflexivity|].
      split; [reflexivity|]. change (dataframes o1 <> []). rewrite Hd. discriminate.
Qed.

End Ending.

(** ** The index of the result *)

Section Index.
Context `{Pandas}.

Lemma NoDup_map_filter {A B} (f : A -> B) (p : A -> bool) (l : list A) :
  List.NoDup (List.map f l) -> List.NoDup (List.map f (List.filter p l)).
Proof.
  induction l as [|x l IH]; simpl; intros Hn; [constructor|].
  inversion Hn as [|? ? Hx Hn']; subst.
  destruct (p x); simpl; [|auto]. constructor; [|auto].
  intros Hin. apply Hx. apply in_map_iff in Hin as (y & Hy & Hin).
  apply filter_In in Hin as [Hin _]. apply in_map_iff. eauto.
Qed.

Lemma relabel_position {A} (l : list A) a i (x : A) :
  In (i, x) (combine (seq a (List.length l)) l) ->
  (a <= i)%nat /\ nth_error l (i - a) = Some x.
Proof.
  revert a. induction l as [|y l IH]; intros a; simpl; [tauto|].
  intros [[= <- <-]|Hin].
  - rewrite Nat.sub_diag. now split.
  - apply IH in Hin as [Hle Hnth]. split; [lia|].
    replace (i - a)%nat with (S (i - S a)) by lia. exact Hnth.
Qed.

Lemma concat_position dfs merged i r :
  concat dfs = inr merged -> In (i, r) (rows merged) ->
  nth_error (values merged) i = Some r.
Proof.
  destruct dfs as [|d dfs]; [discriminate|]. intros [= <-]. cbn [rows].
  unfold values, relabel. cbn [rows]. rewrite values_relabel.
  intros Hin. apply relabel_position in Hin as [_ Hnth]. now rewrite Nat.sub_0_r in Hnth.
Qed.

(** X14.  The table [preprocess_data] leaves is not renumbered: the index
    label of each of its rows is the position the row had in the merged
    table, so no label occurs twice, and the row found at that position of
    the merged table has the same cells outside the [datetime] column. *)
Theorem preprocess_data_keeps_merge_positions (s : State) :
  dataframes (snd s) <> [] ->
  one_spelling (tables (snd s)) = true ->
  exists merged out,
    concat (tables (snd s)) = inr merged /\
    preprocessed s out /\
    List.NoDup (index out) /\
    forall r', In r' (rows out) ->
      exists r, nth_error (values merged) (fst r') = Some r /\
                forall c, c <> "datetime" ->
                          cell (columns out) (snd r') c = cell (columns out) r c.
Proof.
  intros Hne Hx.
  destruct (preprocess_data_normalises s Hne Hx)
    as (merged & out & ks & Hc & Hrun & Hcols & _ & _ & Hperm & _ & _).
  exists merged, out. split; [exact Hc|]. split; [exact Hrun|]. split.
  - apply (Permutation_NoDup (Permutation_sym (surviving_labels _ _ Hperm))).
    apply NoDup_map_filter. change (List.map fst (rows merged)) with (index merged).
    rewrite (concat_index _ _ Hc). apply seq_NoDup.
  - intros r' Hr'. apply (Permutation_in _ Hperm) in Hr'. unfold surviving in Hr'.
    apply in_map_iff in Hr' as ([i r] & <- & Hr). apply filter_In in Hr as [Hr _].
    rewrite canonical_rows in Hr. exists r. split.
    + apply (concat_position _ _ _ _ Hc Hr).
    + intros c Hne'. rewrite Hcols. unfold convert_row. cbn [fst snd].
      now apply cell_set_cell_other.
Qed.

(** X15.  A [run] that returns 0 has written nothing: the store is as it
    was before the call. *)
Theorem run_zero_writes_nothing db_path table_name (s : State) s' :
  run db_path table_name s = Return O s' ->
  store (fst s') = store (fst s).
Proof.
  destruct s as [w o]. unfold run, mbind, M_bind. rewrite load_files_returns.
  destruct (preprocess_data _) as [[] [w2 o2]|e s2] eqn:Hpre; [|discriminate].
  apply preprocess_data_frame in Hpre as [[ms Hw] _]. cbn [fst snd] in Hw. subst w2.
  destruct (combined_df o2) as [df|] eqn:Hdf.
  - destruct (len df) as [|n] eqn:Hlen.
    + rewrite (create_database_nothing db_path table_name _ o2).
      2:{ right. exists df. split; [exact Hdf|]. unfold empty. now rewrite Hlen. }
      unfold mret, M_ret, get_self. cbn [snd]. intros Heq. injection Heq as _ <-.
      reflexivity.
    + destruct (create_database_returns db_path table_name
                  (logged (logged w ((INFO, Scanning (directory o))
                                       :: load_log (listing (w, o)))) ms) o2)
        as (w' & -> & _).
      unfold mret, M_ret, get_self. cbn [snd]. rewrite Hdf, Hlen. discriminate.
  - rewrite (create_database_nothing db_path table_name _ o2) by now left.
    unfold mret, M_ret, get_self. cbn [snd]. intros Heq. injection Heq as _ <-.
    reflexivity.
Qed.

End Index.

(** ** The further theorems at concrete inputs *)

Module Instances.

Definition upper_case_csv : File := Scenario.csv "a.CSV" Scenario.b_csv.

Definition hidden_csv : File := Scenario.csv ".csv" Scenario.b_csv.

Definition holding_result : DataETL :=
  with_combined (init "data")
    {| columns := ["datetime"; "val"];
       rows := [(1%nat, [Aware 1704099600000000000 0; Int 2]);
                (O, [Aware 1704103200000000000 0; Int 1])] |}.

Definition holding_other : DataETL :=
  with_combined (init "data")
    {| columns := ["datetime"; "val"];
       rows := [(O, [Aware 1704092400000000000 0; Int 4])] |}.

Definition one_file : State :=
  (Scenario.world [Scenario.csv "b.csv" Scenario.b_csv], init "data").

Definition untimed_start : State :=
  (Scenario.world [Scenario.csv "untimed.csv" Scenario.untimed_csv], init "data").

Lemma load_file_dispatch_witness :
  load_file upper_case_csv (Scenario.world [], init "data") =
  Return tt (logged (Scenario.world []) [(INFO, Loaded "a.CSV")],
             extended (init "data") [("a.CSV", Scenario.b_csv)] []).
Proof.
  apply (load_file_dispatch upper_case_csv "a" "CSV").
  - reflexivity.
  - discriminate.
  - discriminate.
  - reflexivity.
Defined.

Lemma load_file_skips_unsuffixed_witness :
  load_file hidden_csv (Scenario.world [], init "data") =
  Return tt (Scenario.world [], init "data").
Proof.
  apply load_file_skips_unsuffixed. right. left. exists "csv". split; reflexivity.
Defined.

Lemma create_database_replaces_table_witness :
  exists w',
    create_database "out.db" "events" (Scenario.world [], holding_result) =
      Return tt (w', holding_result) /\
    table_at (store w') "out.db" "events" =
      Some {| sql_columns := ["datetime"; "val"];
              sql_rows := [[Aware 1704099600000000000 0; Int 2];
                           [Aware 1704103200000000000 0; Int 1]] |}.
Proof.
  destruct (create_database_replaces_table "out.db" "events" (Scenario.world [])
              holding_result _ eq_refl eq_refl eq_refl) as (w' & Hrun & Htable & _).
  exists w'. split; [exact Hrun | exact Htable].
Defined.

Lemma create_database_second_write_wins_witness :
  exists w1 w2 w2',
    create_database "out.db" "events" (Scenario.world [], holding_result) =
      Return tt (w1, holding_result) /\
    create_database "out.db" "events" (w1, holding_other) = Return tt (w2, holding_other) /\
    create_database "out.db" "events" (Scenario.world [], holding_other) =
      Return tt (w2', holding_other) /\
    store w2 = store w2'.
Proof.
  apply (create_database_second_write_wins "out.db" "events" (Scenario.world [])
           holding_result holding_other _ _ eq_refl eq_refl eq_refl eq_refl eq_refl eq_refl).
Defined.

Lemma run_writes_what_it_counts_witness :
  exists out s',
    run (H := pandas_keeping) "out.db" "events" one_file = Return (len out) s' /\
    combined_df (snd s') = Some out.
Proof.
  destruct (run_writes_what_it_counts (H := pandas_keeping) "out.db" "events" one_file)
    as (out & s' & ks & Hrun & Hdf & _).
  - vm_compute. discriminate.
  - reflexivity.
  - exists out, s'. split; [exact Hrun | exact Hdf].
Defined.

Lemma preprocess_data_keeps_other_columns_witness :
  exists merged out,
    concat (H := pandas_keeping) (tables (snd Scenario.two_files)) = inr merged /\
    preprocessed (H := pandas_keeping) Scenario.two_files out /\
    columns out = ["datetime"; "val"].
Proof.
  destruct (preprocess_data_keeps_other_columns (H := pandas_keeping) Scenario.two_files)
    as (merged & out & Hc & Hrun & Hcols & _).
  - simpl. discriminate.
  - reflexivity.
  - exists merged, out. split; [exact Hc|]. split; [exact Hrun|].
    rewrite Hcols. vm_compute in Hc. injection Hc as <-. reflexivity.
Defined.

Lemma preprocess_data_outcomes_witness :
  exists out, preprocessed (H := pandas_keeping) Scenario.two_files out.
Proof.
  destruct (preprocess_data_outcomes (H := pandas_keeping) Scenario.two_files)
    as (merged & _ & Hout).
  - simpl. discriminate.
  - exact Hout.
Defined.

Lemma run_nothing_loaded_witness :
  exists s',
    run (H := pandas_keeping) "out.db" "events" (Scenario.world [], init "missing") =
      Return O s' /\
    store (fst s') = ∅.
Proof.
  eexists. split.
  - apply (run_nothing_loaded (H := pandas_keeping) "out.db" "events"
             (Scenario.world []) (init "missing")); reflexivity.
  - reflexivity.
Defined.

Lemma run_raises_only_on_schema_witness :
  exists e s',
    run (H := pandas_keeping) "out.db" "events" untimed_start = Raise e s' /\
    e = KeyError "datetime" /\
    store (fst s') = ∅.
Proof.
  eexists. eexists.
  assert (Hrun : run (H := pandas_keeping) "out.db" "events" untimed_start =
                 Raise (KeyError "datetime")
                       (final_state (run (H := pandas_keeping) "out.db" "events"
                                         untimed_start))).
  { vm_compute. reflexivity. }
  split; [exact Hrun|].
  destruct (run_raises_only_on_schema (H := pandas_keeping) "out.db" "events" untimed_start
              _ _ eq_refl Hrun) as (_ & Hstore & _).
  split; [reflexivity | exact Hstore].
Defined.

Lemma preprocess_data_keeps_merge_positions_witness :
  exists merged out,
    concat (H := pandas_keeping) (tables (snd Scenario.two_files)) = inr merged /\
    preprocessed (H := pandas_keeping) Scenario.two_files out /\
    List.NoDup (index out).
Proof.
  destruct (preprocess_data_keeps_merge_positions (H := pandas_keeping) Scenario.two_files)
    as (merged & out & Hc & Hrun & Hn & _).
  - simpl. discriminate.
  - reflexivity.
  - exists merged, out. split; [exact Hc|]. split; [exact Hrun | exact Hn].
Defined.

Lemma run_zero_writes_nothing_witness :
  exists s',
    run (H := pandas_keeping) "out.db" "events" Scenario.hopeless_start = Return O s' /\
    store (fst s') = ∅.
Proof.
  eexists.
  assert (Hrun : run (H := pandas_keeping) "out.db" "events" Scenario.hopeless_start =
                 Return O (final_state (run (H := pandas_keeping) "out.db" "events"
                                            Scenario.hopeless_start))).
  { vm_compute. reflexivity. }
  split; [exact Hrun|].
  apply (run_zero_writes_nothing (H := pandas_keeping) "out.db" "events"
           Scenario.hopeless_start _ Hrun).
Defined.

End Instances.
